(** * svdgen: the register-model-to-SVD-tree compiler of [util/svdgen/lib.py]

    A shallow embedding of the functions of [lib.py] that turn validated
    top-level and peripheral HJSON into a tree of [xml.etree] elements,
    followed by the properties of that compiler.

    The Python code is dynamically typed: every register description is an
    HJSON value, and every operation on it may raise.  The embedding keeps
    both: HJSON values are one inductive type, exceptions are an error
    monad, and each Python primitive that [lib.py] applies to an HJSON value
    is a function that says what it returns or raises on every kind of
    value. *)

From Stdlib Require Import ZArith String Ascii List Bool Lia.
From Stdlib Require Import HexString DecimalString.
Import ListNotations.

Set Warnings "-register-all".
Open Scope string_scope.
Open Scope Z_scope.

(** ** HJSON values *)

(** The values [hjson.load] produces, as far as register descriptions use
    them: [None], integers, strings, lists and dictionaries; booleans and
    floating-point numbers are not among them, and what is said below of
    "every value" is said of these five kinds.  A dictionary is an
    association list in insertion order; a lookup takes the first binding
    of a key.  Characters are code points below 256. *)
Inductive hjson : Type :=
| HNone
| HInt (z : Z)
| HStr (s : string)
| HList (l : list hjson)
| HDict (kvs : list (string * hjson)).

Definition is_none (v : hjson) : bool :=
  match v with HNone => true | _ => false end.

Fixpoint dict_lookup (k : string) (kvs : list (string * hjson)) : option hjson :=
  match kvs with
  | [] => None
  | (k', v) :: kvs' => if String.eqb k k' then Some v else dict_lookup k kvs'
  end.

(** [d[k] = v] on a dictionary: the binding is replaced in place when the
    key exists and appended otherwise. *)
Fixpoint dict_set (k : string) (v : hjson) (kvs : list (string * hjson))
  : list (string * hjson) :=
  match kvs with
  | [] => [(k, v)]
  | (k', v') :: kvs' =>
      if String.eqb k k' then (k', v) :: kvs' else (k', v') :: dict_set k v kvs'
  end.

Definition dict_keys (kvs : list (string * hjson)) : list string :=
  nodup string_dec (map fst kvs).

(** Nesting depth of a value; the measure the recursion of
    [generate_all_registers] descends on. *)
Fixpoint depth (v : hjson) : nat :=
  match v with
  | HList l => S (list_max (map depth l))
  | HDict kvs => S (list_max (map (fun kv => depth (snd kv)) kvs))
  | _ => O
  end.

(** ** Exceptions and the error monad *)

Inductive exn : Type :=
| KeyError (key : hjson)
| TypeError
| AttributeError
| IndexError
| ValueError
| OverflowError
| SystemExit (msg : string)
| PysvdError (msg : string)
| OutOfFuel.

Inductive result (A : Type) : Type :=
| Ok (a : A)
| Raise (e : exn).
Arguments Ok {A} a.
Arguments Raise {A} e.

Definition bind {A B : Type} (c : result A) (k : A -> result B) : result B :=
  match c with
  | Ok a => k a
  | Raise e => Raise e
  end.

Notation "x <- c ;; k" := (bind c (fun x => k))
  (at level 61, c at next level, right associativity).
Notation "' pat <- c ;; k" := (bind c (fun x => match x with pat => k end))
  (at level 61, pat pattern, c at next level, right associativity).

Fixpoint mapM {A B : Type} (f : A -> result B) (l : list A) : result (list B) :=
  match l with
  | [] => Ok []
  | x :: l' => y <- f x ;; ys <- mapM f l' ;; Ok (y :: ys)
  end.

(** ** Python primitives on HJSON values *)

(** [d.get(k)]: only dictionaries have the method. *)
Definition py_get (d : hjson) (k : string) : result hjson :=
  match d with
  | HDict kvs =>
      match dict_lookup k kvs with
      | Some v => Ok v
      | None => Ok HNone
      end
  | _ => Raise AttributeError
  end.

(** [d[k]] with a string key. *)
Definition py_getitem (d : hjson) (k : string) : result hjson :=
  match d with
  | HDict kvs =>
      match dict_lookup k kvs with
      | Some v => Ok v
      | None => Raise (KeyError (HStr k))
      end
  | _ => Raise TypeError
  end.

Definition string_get (i : nat) (s : string) : option string :=
  match String.get i s with
  | Some c => Some (String c EmptyString)
  | None => None
  end.

(** [d[i]] with an integer index; a negative index counts from the end. *)
Definition py_index (d : hjson) (i : Z) : result hjson :=
  match d with
  | HList l =>
      let j := if i <? 0 then i + Z.of_nat (List.length l) else i in
      if j <? 0 then Raise IndexError
      else match nth_error l (Z.to_nat j) with
           | Some v => Ok v
           | None => Raise IndexError
           end
  | HStr s =>
      let j := if i <? 0 then i + Z.of_nat (String.length s) else i in
      if j <? 0 then Raise IndexError
      else match string_get (Z.to_nat j) s with
           | Some c => Ok (HStr c)
           | None => Raise IndexError
           end
  | HDict _ => Raise (KeyError (HInt i))
  | _ => Raise TypeError
  end.

Definition py_len (v : hjson) : result Z :=
  match v with
  | HList l => Ok (Z.of_nat (List.length l))
  | HStr s => Ok (Z.of_nat (String.length s))
  | HDict kvs => Ok (Z.of_nat (List.length (dict_keys kvs)))
  | _ => Raise TypeError
  end.

(** [s.find(sub)]: the lowest index of [sub] in [s], or -1. *)
Definition py_find (sub s : string) : Z :=
  match String.index 0 sub s with
  | Some n => Z.of_nat n
  | None => -1
  end.

Definition hjson_is_str (k : string) (v : hjson) : bool :=
  match v with
  | HStr s => String.eqb s k
  | _ => false
  end.

(** [k in v] for a string [k]: key membership on a dictionary, element
    membership on a list, substring test on a string. *)
Definition py_contains (k : string) (v : hjson) : result bool :=
  match v with
  | HDict kvs =>
      Ok (match dict_lookup k kvs with Some _ => true | None => false end)
  | HList l => Ok (existsb (hjson_is_str k) l)
  | HStr s => Ok (0 <=? py_find k s)
  | _ => Raise TypeError
  end.

Fixpoint string_chars (s : string) : list hjson :=
  match s with
  | EmptyString => []
  | String c s' => HStr (String c EmptyString) :: string_chars s'
  end.

(** The items a [for] loop over the value visits. *)
Definition py_iter (v : hjson) : result (list hjson) :=
  match v with
  | HList l => Ok l
  | HDict kvs => Ok (map HStr (dict_keys kvs))
  | HStr s => Ok (string_chars s)
  | _ => Raise TypeError
  end.

(** [v == n] and [v != n] against an integer literal: among the five
    kinds of values only the integer [n] equals it. *)
Definition py_eq_int (v : hjson) (n : Z) : bool :=
  match v with
  | HInt z => z =? n
  | _ => false
  end.

Definition py_ne_int (v : hjson) (n : Z) : bool := negb (py_eq_int v n).

(** [a - b]. *)
Definition py_sub (a b : hjson) : result hjson :=
  match a, b with
  | HInt x, HInt y => Ok (HInt (x - y))
  | _, _ => Raise TypeError
  end.

(** [hex(n)]. *)
Definition py_hex (v : hjson) : result string :=
  match v with
  | HInt z => Ok (HexString.of_Z z)
  | _ => Raise TypeError
  end.

Definition dec (z : Z) : string := NilZero.string_of_int (Z.to_int z).

(** [int(v / 8)]: true division of an integer is correctly rounded to a
    double (53 significant bits, ties to even), raises once the quotient
    no longer fits a double, and [int] truncates towards zero. *)
Definition round53 (a : Z) : Z :=
  if a <? 2 ^ 53 then a
  else
    let e := Z.log2 a - 52 in
    let q := a / 2 ^ e in
    let r := a mod 2 ^ e in
    let h := 2 ^ (e - 1) in
    let q' := if (h <? r) || ((r =? h) && Z.odd q) then q + 1 else q in
    q' * 2 ^ e.

Definition py_int_truediv8 (v : hjson) : result hjson :=
  match v with
  | HInt z =>
      let a := round53 (Z.abs z) in
      if 2 ^ 1027 <=? a then Raise OverflowError
      else Ok (HInt (Z.sgn z * (a / 8)))
  | _ => Raise TypeError
  end.

(** ** The output tree: [xml.etree.ElementTree.Element] *)

(** An element made by [ET.Comment] has the comment factory as its tag. *)
Inductive etag : Type :=
| Tag (name : string)
| CommentTag.

Inductive Element : Type :=
| mkElement (tag : etag) (attrib : list (string * string))
            (text : option string) (tail : option string)
            (children : list Element).

Definition tag (e : Element) : etag :=
  match e with mkElement t _ _ _ _ => t end.
Definition attrib (e : Element) : list (string * string) :=
  match e with mkElement _ a _ _ _ => a end.
Definition text (e : Element) : option string :=
  match e with mkElement _ _ t _ _ => t end.
Definition tail (e : Element) : option string :=
  match e with mkElement _ _ _ t _ => t end.
Definition children (e : Element) : list Element :=
  match e with mkElement _ _ _ _ c => c end.

(** [ET.Element(tag)] and [ET.Comment(text)]. *)
Definition ET_Element (name : string) (attrs : list (string * string)) : Element :=
  mkElement (Tag name) attrs None None [].

Definition ET_Comment (txt : string) : Element :=
  mkElement CommentTag [] (Some txt) None [].

Definition has_tag (name : string) (e : Element) : bool :=
  match tag e with
  | Tag t => String.eqb t name
  | CommentTag => false
  end.

(** [element.find('./name')]: the first direct child with that tag. *)
Definition find_child (name : string) (e : Element) : option Element :=
  List.find (has_tag name) (children e).

(** [extend_node(element, *elements)]. *)
Definition extend_node (element : Element) (elements : list Element) : Element :=
  match element with
  | mkElement t a tx tl c => mkElement t a tx tl (c ++ elements)
  end.

(** ** The [pysvd.type] enumerations

    [pysvd] is an external package; these are the members [lib.py] names. *)
Inductive access : Type := read_only | read_write | write_only.
Inductive readAction : Type := clear.
Inductive modifiedWriteValues : Type := oneToClear | oneToSet | zeroToClear.
Inductive cpuName : Type := other.
Inductive endian : Type := little.

(** A value that [svd_node] receives as a keyword argument. *)
Inductive pyobj : Type :=
| OJson (v : hjson)
| OAccess (a : access)
| OReadAction (r : readAction)
| OModifiedWriteValues (m : modifiedWriteValues)
| OCpuName (c : cpuName)
| OEndian (e : endian).

Definition opt {A : Type} (inj : A -> pyobj) (o : option A) : pyobj :=
  match o with
  | Some a => inj a
  | None => OJson HNone
  end.

Definition obj_is_none (o : pyobj) : bool :=
  match o with
  | OJson HNone => true
  | _ => false
  end.

Definition dquote : string := String (ascii_of_nat 34) EmptyString.

(** ** What the Python runtime and the external packages supply

    Behaviour of [str], [hjson] and [pysvd] that [lib.py] relies on and
    that is defined outside the repository. *)
Record runtime : Type := {
  (** [str.casefold] *)
  casefold : string -> string;
  (** [str.strip] *)
  strip : string -> string;
  (** [str] of a list or a dictionary *)
  str_container : hjson -> string;
  (** [a < b] on two lists; [None] when it raises [TypeError] *)
  list_lt : list hjson -> list hjson -> option bool;
  (** [hjson.dumps(v, indent='  ', sort_keys=True, default=str)] *)
  hjson_dumps : hjson -> string;
  (** [str] of the members of the [pysvd.type] enumerations *)
  str_access : access -> string;
  str_readAction : readAction -> string;
  str_modifiedWriteValues : modifiedWriteValues -> string;
  str_cpuName : cpuName -> string;
  str_endian : endian -> string;
  (** [pysvd.element.Device(root)]: the message of the exception it
      raises, if any *)
  pysvd_Device : Element -> option string
}.

Section Svdgen.

Variable rt : runtime.

(** [str(v)]. *)
Definition py_str (o : pyobj) : string :=
  match o with
  | OJson HNone => "None"
  | OJson (HInt z) => dec z
  | OJson (HStr s) => s
  | OJson v => str_container rt v
  | OAccess a => str_access rt a
  | OReadAction r => str_readAction rt r
  | OModifiedWriteValues m => str_modifiedWriteValues rt m
  | OCpuName c => str_cpuName rt c
  | OEndian e => str_endian rt e
  end.

(** [a + b]. *)
Definition py_add (a b : hjson) : result hjson :=
  match a, b with
  | HInt x, HInt y => Ok (HInt (x + y))
  | HStr x, HStr y => Ok (HStr (x ++ y))
  | HList x, HList y => Ok (HList (x ++ y))
  | _, _ => Raise TypeError
  end.

(** [a < b]; strings compare by code point. *)
Definition py_lt (a b : hjson) : result bool :=
  match a, b with
  | HInt x, HInt y => Ok (x <? y)
  | HStr x, HStr y => Ok (String.ltb x y)
  | HList x, HList y =>
      match list_lt rt x y with
      | Some b => Ok b
      | None => Raise TypeError
      end
  | _, _ => Raise TypeError
  end.

(** ['%d' % v]: among the five kinds of values only an integer is
    formatted. *)
Definition fmt_d (v : hjson) : result string :=
  match v with
  | HInt z => Ok (dec z)
  | _ => Raise TypeError
  end.

Definition case_compare (left right : hjson) : result bool :=
  match left with
  | HStr l =>
      match right with
      | HStr r => Ok (String.eqb (casefold rt l) (casefold rt r))
      | _ => Raise AttributeError
      end
  | _ => Raise AttributeError
  end.

Definition hex_or_none (num : hjson) : result hjson :=
  if is_none num then Ok HNone
  else s <- py_hex num ;; Ok (HStr s).

(** The loop of [svd_node]: one text child per keyword argument whose
    value is not [None], in the order the arguments are written. *)
Fixpoint text_children (texts : list (string * pyobj)) : list Element :=
  match texts with
  | [] => []
  | (tg, value) :: texts' =>
      if obj_is_none value then text_children texts'
      else mkElement (Tag tg) [] (Some (py_str value)) None []
             :: text_children texts'
  end.

(** [svd_node(element, **texts)]; the first argument is a tag name or an
    element, so the [TypeError] branch of the source cannot be reached. *)
Definition svd_node (element : string + Element) (texts : list (string * pyobj))
  : Element :=
  let element :=
    match element with
    | inl name => ET_Element name []
    | inr e => e
    end in
  extend_node element (text_children texts).

(** ** Interrupts *)

(** The loop body of [generate_all_interrupts]. *)
Definition generate_interrupt (num : Z) (irq : hjson) : result Element :=
  name <- py_getitem irq "name" ;;
  Ok (svd_node (inl "interrupt")
        [("name", OJson name); ("value", OJson (HInt num))]).

Fixpoint enumerate_from (num : Z) (l : list hjson) : list (Z * hjson) :=
  match l with
  | [] => []
  | x :: l' => (num, x) :: enumerate_from (num + 1) l'
  end.

Definition generate_all_interrupts (irqs : hjson) : result (list Element) :=
  if is_none irqs then Ok []
  else
    items <- py_iter irqs ;;
    mapM (fun p => generate_interrupt (fst p) (snd p)) (enumerate_from 0 items).

(** ** Access modes *)

(** The dictionary [modes] of [sw_access_modes], in source order. *)
Definition modes
  : list (hjson * (option access * option readAction * option modifiedWriteValues)) :=
  [ (HNone,        (None,            None,       None));
    (HStr "ro",    (Some read_only,  None,       None));
    (HStr "rc",    (Some read_only,  Some clear, None));
    (HStr "rw",    (Some read_write, None,       None));
    (HStr "r0w1c", (Some write_only, None,       Some oneToClear));
    (HStr "rw1s",  (Some read_write, None,       Some oneToSet));
    (HStr "rw1c",  (Some read_write, None,       Some oneToClear));
    (HStr "rw0c",  (Some read_write, None,       Some zeroToClear));
    (HStr "wo",    (Some write_only, None,       None)) ].

(** Equality of two dictionary keys, each [None] or a string. *)
Definition key_eqb (a b : hjson) : bool :=
  match a, b with
  | HNone, HNone => true
  | HStr x, HStr y => String.eqb x y
  | _, _ => false
  end.

Fixpoint modes_lookup {V : Type} (key : hjson) (d : list (hjson * V)) : option V :=
  match d with
  | [] => None
  | (k, v) :: d' => if key_eqb key k then Some v else modes_lookup key d'
  end.

(** [modes[key]]: a list or a dictionary is not hashable. *)
Definition modes_getitem {V : Type} (d : list (hjson * V)) (key : hjson) : result V :=
  match key with
  | HList _ | HDict _ => Raise TypeError
  | _ =>
      match modes_lookup key d with
      | Some v => Ok v
      | None => Raise (KeyError key)
      end
  end.

Definition sw_access_modes (reg_or_field : hjson)
  : result (option access * option readAction * option modifiedWriteValues) :=
  swaccess <- py_get reg_or_field "swaccess" ;;
  modes_getitem modes swaccess.

(** ** Fields and registers *)

Definition generate_bitrange (bitinfo : hjson) : result string :=
  width <- py_index bitinfo 1 ;;
  lsb <- py_index bitinfo 2 ;;
  sum <- py_add lsb width ;;
  msb <- py_sub sum (HInt 1) ;;
  hi <- fmt_d msb ;;
  lo <- fmt_d lsb ;;
  Ok ("[" ++ hi ++ ":" ++ lo ++ "]").

Definition generate_field (bits : hjson) : result Element :=
  '(access, read_action, modified_write_values) <- sw_access_modes bits ;;
  name <- py_getitem bits "name" ;;
  desc <- py_getitem bits "desc" ;;
  bitinfo <- py_getitem bits "bitinfo" ;;
  bitRange <- generate_bitrange bitinfo ;;
  Ok (svd_node (inl "field")
        [ ("name", OJson name);
          ("description", OJson desc);
          ("bitRange", OJson (HStr bitRange));
          ("access", opt OAccess access);
          ("readAction", opt OReadAction read_action);
          ("modifiedWriteValues", opt OModifiedWriteValues modified_write_values) ]).

(** The condition [flatten] of [generate_register]; [and] stops at the
    first false operand. *)
Definition flatten_of (reg fields : hjson) : result bool :=
  if is_none fields then Ok false
  else
    n <- py_len fields ;;
    if negb (n =? 1) then Ok false
    else
      f0 <- py_index fields 0 ;;
      fname <- py_getitem f0 "name" ;;
      rname <- py_getitem reg "name" ;;
      same <- case_compare fname rname ;;
      if negb same then Ok false
      else
        f0 <- py_index fields 0 ;;
        bitinfo <- py_getitem f0 "bitinfo" ;;
        lsb <- py_index bitinfo 2 ;;
        Ok (py_eq_int lsb 0).

(** The inner generator [generate_all_fields] of [generate_register]. *)
Definition generate_all_fields (flatten : bool) (fields : hjson)
  : result (list Element) :=
  if negb flatten && negb (is_none fields) then
    items <- py_iter fields ;;
    fs <- mapM generate_field items ;;
    Ok [extend_node (svd_node (inl "fields") []) fs]
  else Ok [].

Definition generate_register (reg base : hjson) : result Element :=
  fields <- py_get reg "fields" ;;
  flatten <- flatten_of reg fields ;;
  size <- (if flatten : bool then
             f0 <- py_index fields 0 ;;
             bitinfo <- py_getitem f0 "bitinfo" ;;
             py_index bitinfo 1
           else Ok HNone) ;;
  '(access, read_action, modified_write_values) <- sw_access_modes reg ;;
  name <- py_getitem reg "name" ;;
  desc <- py_getitem reg "desc" ;;
  genoffset <- py_getitem reg "genoffset" ;;
  offset <- py_sub genoffset base ;;
  addressOffset <- hex_or_none offset ;;
  genbitsused <- py_get reg "genbitsused" ;;
  mask <- hex_or_none genbitsused ;;
  genresval <- py_get reg "genresval" ;;
  resetValue <- hex_or_none genresval ;;
  genresmask <- py_get reg "genresmask" ;;
  resetMask <- hex_or_none genresmask ;;
  let register :=
    svd_node (inl "register")
      [ ("name", OJson name);
        ("description", OJson desc);
        ("addressOffset", OJson addressOffset);
        ("size", OJson size);
        ("mask", OJson mask);
        ("resetValue", OJson resetValue);
        ("resetMask", OJson resetMask);
        ("access", opt OAccess access);
        ("readAction", opt OReadAction read_action);
        ("modifiedWriteValues", opt OModifiedWriteValues modified_write_values) ] in
  fs <- generate_all_fields flatten fields ;;
  Ok (extend_node register fs).

(** [child.text = txt] on the first direct child with the given tag. *)
Fixpoint set_first_text (name txt : string) (cs : list Element) : list Element :=
  match cs with
  | [] => []
  | c :: cs' =>
      if has_tag name c then
        match c with
        | mkElement t a _ tl ch => mkElement t a (Some txt) tl ch :: cs'
        end
      else c :: set_first_text name txt cs'
  end.

Definition set_child_text (name txt : string) (e : Element) : Element :=
  match e with
  | mkElement t a tx tl cs => mkElement t a tx tl (set_first_text name txt cs)
  end.

Definition generate_dim_register (window base : hjson) : result Element :=
  register <- generate_register window base ;;
  items <- py_getitem window "items" ;;
  genvalidbits <- py_getitem window "genvalidbits" ;;
  stride <- py_int_truediv8 genvalidbits ;;
  dimIncrement <- hex_or_none stride ;;
  let window :=
    svd_node (inr register)
      [("dim", OJson items); ("dimIncrement", OJson dimIncrement)] in
  match find_child "name" window with
  | None => Raise AttributeError
  | Some name =>
      match text name with
      | None => Raise AttributeError
      | Some t =>
          if py_find "%s" t <? 0
          then Ok (set_child_text "name" (t ++ "%s") window)
          else Ok window
      end
  end.

(** ** Clusters and register lists *)

Definition read_genoffset (reg : hjson) : result hjson :=
  genoffset <- py_get reg "genoffset" ;;
  if negb (is_none genoffset) then Ok genoffset
  else
    window <- py_get reg "window" ;;
    if negb (is_none window) then py_getitem window "genoffset"
    else
      Raise (SystemExit ("could not determine register " ++ dquote ++ "genoffset"
                           ++ dquote ++ ": " ++ hjson_dumps rt reg)).

(** [min(map(read_genoffset, genregs))]: [map] is lazy, so each offset is
    read just before it is compared with the smallest one so far. *)
Fixpoint min_loop (current : hjson) (rest : list hjson) : result hjson :=
  match rest with
  | [] => Ok current
  | reg :: rest' =>
      item <- read_genoffset reg ;;
      less <- py_lt item current ;;
      min_loop (if less : bool then item else current) rest'
  end.

Definition min_genoffset (genregs : hjson) : result hjson :=
  items <- py_iter genregs ;;
  match items with
  | [] => Raise ValueError
  | reg :: rest => first <- read_genoffset reg ;; min_loop first rest
  end.

Definition nesting_unsupported : string :=
  "nesting " ++ dquote ++ "multireg" ++ dquote ++ " elements is not supported".

(** [generate_cluster], with the call back into [generate_all_registers]
    as a parameter. *)
Definition generate_cluster_with
    (all_registers : hjson -> hjson -> result (list Element))
    (multi base : hjson) : result Element :=
  if py_ne_int base 0 then Raise (SystemExit nesting_unsupported)
  else
    genregs <- py_getitem multi "genregs" ;;
    base <- min_genoffset genregs ;;
    name <- py_getitem multi "name" ;;
    desc <- py_getitem multi "desc" ;;
    addressOffset <- hex_or_none base ;;
    let cluster :=
      svd_node (inl "cluster")
        [ ("name", OJson name);
          ("description", OJson desc);
          ("addressOffset", OJson addressOffset) ] in
    registers <- all_registers genregs base ;;
    Ok (extend_node cluster registers).

(** The body of the loop of [generate_all_registers]: the nodes one entry
    of the register list yields. *)
Definition generate_entry
    (all_registers : hjson -> hjson -> result (list Element))
    (base reg : hjson) : result (list Element) :=
  reserved <- py_contains "reserved" reg ;;
  skip <- (if reserved : bool then Ok true else py_contains "skipto" reg) ;;
  if skip : bool then Ok []
  else
    is_window <- py_contains "window" reg ;;
    if is_window : bool then
      window <- py_getitem reg "window" ;;
      register <- generate_dim_register window base ;;
      Ok [register]
    else
      is_sameaddr <- py_contains "sameaddr" reg ;;
      if is_sameaddr : bool then
        sameaddr <- py_getitem reg "sameaddr" ;;
        all_registers sameaddr base
      else
        is_multireg <- py_contains "multireg" reg ;;
        if is_multireg : bool then
          multireg <- py_getitem reg "multireg" ;;
          cluster <- generate_cluster_with all_registers multireg base ;;
          Ok [cluster]
        else
          register <- generate_register reg base ;;
          Ok [register].

(** The two functions call each other through values nested ever deeper
    in the register list; the recursion is on a bound of that depth. *)
Fixpoint generate_all_registers_fuel (fuel : nat) (regs base : hjson)
  : result (list Element) :=
  match fuel with
  | O => Raise OutOfFuel
  | S fuel' =>
      items <- py_iter regs ;;
      nodes <- mapM (generate_entry (generate_all_registers_fuel fuel') base) items ;;
      Ok (concat nodes)
  end.

Definition generate_all_registers (regs base : hjson) : result (list Element) :=
  generate_all_registers_fuel (S (depth regs)) regs base.

Definition generate_cluster (multi base : hjson) : result Element :=
  generate_cluster_with generate_all_registers multi base.

(** ** Peripherals and the device *)

Definition generate_peripheral (module ip : hjson) : result Element :=
  let registers := svd_node (inl "registers") [] in
  name <- py_getitem module "name" ;;
  base_addr <- py_getitem module "base_addr" ;;
  let peripheral :=
    svd_node (inl "peripheral")
      [("name", OJson name); ("baseAddress", OJson base_addr)] in
  interrupt_list <- py_get ip "interrupt_list" ;;
  interrupts <- generate_all_interrupts interrupt_list ;;
  regs <- py_getitem ip "registers" ;;
  nodes <- generate_all_registers regs (HInt 0) ;;
  name' <- py_getitem module "name" ;;
  Ok (extend_node peripheral
        (interrupts
           ++ [ extend_node registers nodes;
                ET_Comment ("end of " ++ py_str (OJson name')) ])).

(** [ips[key]] on the dictionary from module type to IP definition. *)
Definition ips_getitem (ips : list (string * hjson)) (key : hjson) : result hjson :=
  match key with
  | HList _ | HDict _ => Raise TypeError
  | HStr k =>
      match dict_lookup k ips with
      | Some ip => Ok ip
      | None => Raise (KeyError key)
      end
  | _ => Raise (KeyError key)
  end.

Definition generate_peripherals (modules : hjson) (ips : list (string * hjson))
  : result Element :=
  items <- py_iter modules ;;
  ps <- mapM (fun module =>
                type <- py_getitem module "type" ;;
                ip <- ips_getitem ips type ;;
                generate_peripheral module ip) items ;;
  Ok (extend_node (svd_node (inl "peripherals") []) ps).

Definition generate_cpu : Element :=
  svd_node (inl "cpu")
    [ ("name", OCpuName other);
      ("endian", OEndian little);
      ("revision", OJson (HInt 0));
      ("mpuPresent", OJson (HStr "false"));
      ("fpuPresent", OJson (HStr "false"));
      ("nvicPrioBits", OJson (HInt 0));
      ("vendorSystickConfig", OJson (HStr "false")) ].

Definition generate_device (top : hjson) (ips : list (string * hjson))
    (version description : string) : result Element :=
  name <- py_getitem top "name" ;;
  width <- py_getitem top "datawidth" ;;
  size <- py_getitem top "datawidth" ;;
  let device :=
    svd_node
      (inr (ET_Element "device"
              [ ("schemaVersion", "1.1");
                ("xmlns:xs", "http://www.w3.org/2001/XMLSchema-instance");
                ("xs:noNamespaceSchemaLocation", "CMSIS-SVD.xsd") ]))
      [ ("vendor", OJson (HStr "lowRISC"));
        ("name", OJson name);
        ("version", OJson (HStr version));
        ("description", OJson (HStr description));
        ("width", OJson width);
        ("size", OJson size);
        ("addressUnitBits", OJson (HInt 8)) ] in
  modules <- py_getitem top "module" ;;
  peripherals <- generate_peripherals modules ips ;;
  Ok (extend_node device [generate_cpu; peripherals]).

(** ** Indentation *)

(** [last.tail = indent] on the last child. *)
Fixpoint set_last_tail (indent : string) (cs : list Element) : list Element :=
  match cs with
  | [] => []
  | [mkElement t a tx _ ch] => [mkElement t a tx (Some indent) ch]
  | c :: cs' => c :: set_last_tail indent cs'
  end.

(** [indent_tree] changes the element in place; here it returns the
    changed element. *)
Fixpoint indent_tree (element : Element) (indent : string) : Element :=
  match element with
  | mkElement t a tx _ cs =>
      let is_parent := negb (Nat.eqb (List.length cs) 0) in
      let tx' :=
        if is_parent then Some (indent ++ "  ")
        else match tx with
             | Some s => Some (strip rt s)
             | None => None
             end in
      let cs' := map (fun child => indent_tree child (indent ++ "  ")) cs in
      mkElement t a tx' (Some indent)
        (if is_parent then set_last_tail indent cs' else cs')
  end.

Definition newline : string := String (ascii_of_nat 10) EmptyString.

Definition convert_top_to_svd (top : hjson) (ips : list (string * hjson))
    (version description : string) (verify : bool) : result Element :=
  root <- generate_device top ips version description ;;
  let root := indent_tree root newline in
  if verify then
    match pysvd_Device rt root with
    | Some msg => Raise (PysvdError msg)
    | None => Ok root
    end
  else Ok root.

End Svdgen.

(** ** A runtime to run the compiler on examples

    The functions of the record on ASCII text; [str] of a container, the
    HJSON dump, the comparison of lists and the validator (which here
    accepts every tree) are stand-ins, the strings of the enumeration
    members are those of the SVD format.  No property below depends on
    them: each is stated for every runtime. *)

Definition ascii_lower (c : ascii) : ascii :=
  let n := nat_of_ascii c in
  if (Nat.leb 65 n && Nat.leb n 90)%bool then ascii_of_nat (n + 32) else c.

Fixpoint ascii_casefold (s : string) : string :=
  match s with
  | EmptyString => EmptyString
  | String c s' => String (ascii_lower c) (ascii_casefold s')
  end.

Definition is_space (c : ascii) : bool :=
  let n := nat_of_ascii c in
  (Nat.leb 9 n && Nat.leb n 13 || Nat.eqb n 32)%bool.

Fixpoint lstrip (s : string) : string :=
  match s with
  | EmptyString => EmptyString
  | String c s' => if is_space c then lstrip s' else s
  end.

Fixpoint rstrip (s : string) : string :=
  match s with
  | EmptyString => EmptyString
  | String c s' =>
      match rstrip s' with
      | EmptyString => if is_space c then EmptyString else String c EmptyString
      | r => String c r
      end
  end.

Fixpoint show (v : hjson) : string :=
  match v with
  | HNone => "null"
  | HInt z => dec z
  | HStr s => dquote ++ s ++ dquote
  | HList l => "[" ++ String.concat ", " (map show l) ++ "]"
  | HDict kvs =>
      "{" ++ String.concat ", "
               (map (fun kv => dquote ++ fst kv ++ dquote ++ ": " ++ show (snd kv)) kvs)
          ++ "}"
  end.

Definition ascii_runtime : runtime := {|
  casefold := ascii_casefold;
  strip := fun s => rstrip (lstrip s);
  str_container := show;
  list_lt := fun _ _ => None;
  hjson_dumps := show;
  str_access := fun a =>
    match a with
    | read_only => "read-only"
    | read_write => "read-write"
    | write_only => "write-only"
    end;
  str_readAction := fun _ => "clear";
  str_modifiedWriteValues := fun m =>
    match m with
    | oneToClear => "oneToClear"
    | oneToSet => "oneToSet"
    | zeroToClear => "zeroToClear"
    end;
  str_cpuName := fun _ => "other";
  str_endian := fun _ => "little";
  pysvd_Device := fun _ => None
|}.

(** ** Example inputs *)

Definition field_foo_kvs : list (string * hjson) :=
  [ ("name", HStr "foo"); ("desc", HStr "the only field");
    ("bitinfo", HList [HInt 255; HInt 8; HInt 0]);
    ("swaccess", HStr "rw") ].

Definition field_foo : hjson := HDict field_foo_kvs.

Definition reg_FOO_kvs : list (string * hjson) :=
  [ ("name", HStr "FOO"); ("desc", HStr "a narrow register");
    ("genoffset", HInt 16); ("swaccess", HStr "ro");
    ("fields", HList [field_foo]) ].

Definition reg_FOO : hjson := HDict reg_FOO_kvs.

(** The field of "FOO" with a label outside the table. *)
Definition field_foo_bad_label_kvs : list (string * hjson) :=
  dict_set "swaccess" (HStr "bogus") field_foo_kvs.

Definition plain_reg (name : string) (offset : Z) : hjson :=
  HDict [ ("name", HStr name); ("desc", HStr "a register");
          ("genoffset", HInt offset); ("swaccess", HStr "rw") ].

Definition window_entry (name : string) (offset : Z) : hjson :=
  HDict [ ("window",
           HDict [ ("name", HStr name); ("desc", HStr "a buffer");
                   ("genoffset", HInt offset); ("items", HInt 4);
                   ("genvalidbits", HInt 32); ("swaccess", HStr "rw") ]) ].

Definition multireg_entry (name : string) (genregs : list hjson) : hjson :=
  HDict [ ("multireg",
           HDict [ ("name", HStr name); ("desc", HStr "a group");
                   ("genregs", HList genregs) ]) ].

Definition the_labels : list string :=
  ["ro"; "rc"; "rw"; "r0w1c"; "rw1s"; "rw1c"; "rw0c"; "wo"].

Definition reg_empty_fields : hjson :=
  HDict [ ("name", HStr "CTRL"); ("desc", HStr "no fields");
          ("genoffset", HInt 0); ("swaccess", HStr "rw");
          ("fields", HList []) ].

Definition reg_bad_label (name : string) : hjson :=
  HDict [ ("name", HStr name); ("desc", HStr "a register");
          ("genoffset", HInt 0); ("swaccess", HStr "xyz") ].

(** A multireg whose only member is itself a multireg, as [reggen]
    writes such entries. *)
Definition inner_multireg : hjson :=
  multireg_entry "INNER" [plain_reg "R" 16].

Definition nested_multireg : hjson :=
  multireg_entry "OUTER" [inner_multireg].

(** The same nesting, with the inner entry carrying an offset of its own. *)
Definition nested_multireg_at_0 : hjson :=
  multireg_entry "OUTER"
    [ HDict [ ("genoffset", HInt 0);
              ("multireg",
               HDict [ ("name", HStr "INNER"); ("desc", HStr "a group");
                       ("genregs", HList [plain_reg "R" 0]) ]) ] ].

Definition reg_no_offset : hjson :=
  HDict [ ("name", HStr "LOST"); ("desc", HStr "no offset") ].

Definition missing_offset_message (rt : runtime) (reg : hjson) : string :=
  "could not determine register " ++ dquote ++ "genoffset" ++ dquote ++ ": "
    ++ hjson_dumps rt reg.

(** ** Members of a multireg *)

(** [member_offset reg o]: the entry is a plain register with absolute
    offset [o], or a window entry whose template has absolute offset [o]. *)
Inductive member_offset : hjson -> Z -> Prop :=
| member_plain (reg : hjson) (o : Z) :
    py_contains "reserved" reg = Ok false ->
    py_contains "skipto" reg = Ok false ->
    py_contains "window" reg = Ok false ->
    py_contains "sameaddr" reg = Ok false ->
    py_contains "multireg" reg = Ok false ->
    py_getitem reg "genoffset" = Ok (HInt o) ->
    member_offset reg o
| member_window (reg window : hjson) (o : Z) :
    py_contains "reserved" reg = Ok false ->
    py_contains "skipto" reg = Ok false ->
    py_get reg "genoffset" = Ok HNone ->
    py_getitem reg "window" = Ok window ->
    py_getitem window "genoffset" = Ok (HInt o) ->
    member_offset reg o.

(** ** Observations on the output tree *)

(** The text of the first direct child with the given tag. *)
Definition child_text (name : string) (e : Element) : option string :=
  match find_child name e with
  | Some c => text c
  | None => None
  end.

(** The text [svd_node] gives the first child it makes with the given tag. *)
Fixpoint first_text (rt : runtime) (name : string) (texts : list (string * pyobj))
  : option string :=
  match texts with
  | [] => None
  | (tg, value) :: texts' =>
      if String.eqb tg name && negb (obj_is_none value)
      then Some (py_str rt value)
      else first_text rt name texts'
  end.

(** Every node of a tree, the root first. *)
Fixpoint nodes (e : Element) : list Element :=
  match e with
  | mkElement _ _ _ _ cs => e :: flat_map nodes cs
  end.

Definition is_leaf (e : Element) : bool :=
  match text e, children e with
  | Some _, [] => true
  | _, _ => false
  end.

Definition is_parent (e : Element) : bool :=
  match text e, children e with
  | None, _ :: _ => true
  | _, _ => false
  end.

(** Not both text and children. *)
Definition never_both (e : Element) : bool :=
  match text e, children e with
  | Some _, _ :: _ => false
  | _, _ => true
  end.

(** [s] contains the indexing placeholder. *)
Definition has_placeholder (s : string) : Prop :=
  exists pre post, s = pre ++ "%s" ++ post.

(** [shaped e]: no node of the tree under [e] has both text and children. *)
Definition shaped (e : Element) : Prop :=
  Forall (fun n => never_both n = true) (nodes e).

(** ** Example outputs *)

Definition leaf (name txt : string) : Element :=
  mkElement (Tag name) [] (Some txt) None [].

Definition node_FOO : Element :=
  mkElement (Tag "register") [] None None
    [ leaf "name" "FOO"; leaf "description" "a narrow register";
      leaf "addressOffset" "0x10"; leaf "size" "8"; leaf "access" "read-only" ].

Definition example_multireg : hjson :=
  HDict [ ("name", HStr "GROUP"); ("desc", HStr "a group");
          ("genregs",
           HList [plain_reg "R0" 16; window_entry "BUF" 20; plain_reg "R2" 24]) ].

Definition example_window : hjson :=
  HDict [ ("name", HStr "BUF"); ("desc", HStr "a buffer");
          ("genoffset", HInt 32); ("items", HInt 4);
          ("genvalidbits", HInt 32); ("swaccess", HStr "rw") ].

Definition node_window : Element :=
  mkElement (Tag "register") [] None None
    [ leaf "name" "BUF%s"; leaf "description" "a buffer";
      leaf "addressOffset" "0x20"; leaf "access" "read-write";
      leaf "dim" "4"; leaf "dimIncrement" "0x4" ].

Definition node_cluster : Element :=
  mkElement (Tag "cluster") [] None None
    [ leaf "name" "GROUP"; leaf "description" "a group";
      leaf "addressOffset" "0x10";
      mkElement (Tag "register") [] None None
        [ leaf "name" "R0"; leaf "description" "a register";
          leaf "addressOffset" "0x0"; leaf "access" "read-write" ];
      mkElement (Tag "register") [] None None
        [ leaf "name" "BUF%s"; leaf "description" "a buffer";
          leaf "addressOffset" "0x4"; leaf "access" "read-write";
          leaf "dim" "4"; leaf "dimIncrement" "0x4" ];
      mkElement (Tag "register") [] None None
        [ leaf "name" "R2"; leaf "description" "a register";
          leaf "addressOffset" "0x8"; leaf "access" "read-write" ] ].

(** A device with one peripheral that has no registers. *)
Definition top_one_module : hjson :=
  HDict [ ("name", HStr "chip"); ("datawidth", HInt 32);
          ("module",
           HList [ HDict [ ("name", HStr "uart0"); ("type", HStr "uart");
                           ("base_addr", HStr "0x40000000") ] ]) ].

Definition ips_no_registers : list (string * hjson) :=
  [ ("uart", HDict [("registers", HList [])]) ].

Definition device_no_registers : Element :=
  mkElement (Tag "device")
    [ ("schemaVersion", "1.1");
      ("xmlns:xs", "http://www.w3.org/2001/XMLSchema-instance");
      ("xs:noNamespaceSchemaLocation", "CMSIS-SVD.xsd") ] None None
    [ leaf "vendor" "lowRISC"; leaf "name" "chip"; leaf "version" "1.0";
      leaf "description" "a chip"; leaf "width" "32"; leaf "size" "32";
      leaf "addressUnitBits" "8";
      mkElement (Tag "cpu") [] None None
        [ leaf "name" "other"; leaf "endian" "little"; leaf "revision" "0";
          leaf "mpuPresent" "false"; leaf "fpuPresent" "false";
          leaf "nvicPrioBits" "0"; leaf "vendorSystickConfig" "false" ];
      mkElement (Tag "peripherals") [] None None
        [ mkElement (Tag "peripheral") [] None None
            [ leaf "name" "uart0"; leaf "baseAddress" "0x40000000";
              mkElement (Tag "registers") [] None None [];
              mkElement CommentTag [] (Some "end of uart0") None [] ] ] ].

Definition multireg_missing_offset : hjson :=
  HDict [ ("name", HStr "GROUP"); ("desc", HStr "a group");
          ("genregs", HList [plain_reg "R0" 16; reg_no_offset; plain_reg "R2" 24]) ].

(** ** Kinds of register-list entries *)

(** An entry the loop of [generate_all_registers] passes over: ['reserved']
    or ['skipto'] is in it. *)
Definition skipped_entry (reg : hjson) : Prop :=
  py_contains "reserved" reg = Ok true \/
  (py_contains "reserved" reg = Ok false /\ py_contains "skipto" reg = Ok true).

(** An entry that reaches the last branch of the loop: none of the five
    keys is in it. *)
Definition plain_entry (reg : hjson) : Prop :=
  py_contains "reserved" reg = Ok false /\
  py_contains "skipto" reg = Ok false /\
  py_contains "window" reg = Ok false /\
  py_contains "sameaddr" reg = Ok false /\
  py_contains "multireg" reg = Ok false.

(** An entry that reaches the ['sameaddr'] branch, with the value of the key. *)
Definition sameaddr_entry (reg sameaddr : hjson) : Prop :=
  py_contains "reserved" reg = Ok false /\
  py_contains "skipto" reg = Ok false /\
  py_contains "window" reg = Ok false /\
  py_getitem reg "sameaddr" = Ok sameaddr.

(** An entry that reaches the ['multireg'] branch, with the value of the key. *)
Definition multireg_branch_entry (reg multi : hjson) : Prop :=
  py_contains "reserved" reg = Ok false /\
  py_contains "skipto" reg = Ok false /\
  py_contains "window" reg = Ok false /\
  py_contains "sameaddr" reg = Ok false /\
  py_getitem reg "multireg" = Ok multi.

Definition reserved_entry : hjson := HDict [("reserved", HInt 4)].

Definition sameaddr_example : hjson :=
  HDict [("sameaddr", HList [plain_reg "VIEW_A" 8; plain_reg "VIEW_B" 8])].

(** ** Further examples *)

Definition plain_node (name offset : string) : Element :=
  mkElement (Tag "register") [] None None
    [ leaf "name" name; leaf "description" "a register";
      leaf "addressOffset" offset; leaf "access" "read-write" ].

Definition reg_with_masks : hjson :=
  HDict [ ("name", HStr "STATUS"); ("desc", HStr "a register");
          ("genoffset", HInt 8); ("swaccess", HStr "ro");
          ("genbitsused", HInt 255); ("genresval", HInt 1) ].

Definition field_of (name : string) (width lsb : Z) : hjson :=
  HDict [ ("name", HStr name); ("desc", HStr "a field");
          ("bitinfo", HList [HInt 0; HInt width; HInt lsb]);
          ("swaccess", HStr "rw") ].

Definition field_node (name range : string) : Element :=
  mkElement (Tag "field") [] None None
    [ leaf "name" name; leaf "description" "a field"; leaf "bitRange" range;
      leaf "access" "read-write" ].

Definition reg_two_fields : hjson :=
  HDict [ ("name", HStr "CFG"); ("desc", HStr "a register");
          ("genoffset", HInt 12); ("swaccess", HStr "rw");
          ("fields", HList [field_of "EN" 1 0; field_of "MODE" 4 8]) ].

Definition node_two_fields : Element :=
  mkElement (Tag "register") [] None None
    [ leaf "name" "CFG"; leaf "description" "a register";
      leaf "addressOffset" "0xc"; leaf "access" "read-write";
      mkElement (Tag "fields") [] None None
        [field_node "EN" "[0:0]"; field_node "MODE" "[11:8]"] ].

Definition two_interrupts : list hjson :=
  [HDict [("name", HStr "tx_done")]; HDict [("name", HStr "rx_ready")]].

Definition interrupt_node (name value : string) : Element :=
  mkElement (Tag "interrupt") [] None None [leaf "name" name; leaf "value" value].

Definition module_uart : hjson :=
  HDict [ ("name", HStr "uart0"); ("type", HStr "uart");
          ("base_addr", HStr "0x40000000") ].

Definition module_unknown : hjson :=
  HDict [ ("name", HStr "spi0"); ("type", HStr "spi");
          ("base_addr", HStr "0x40010000") ].

Definition ip_uart : hjson :=
  HDict [ ("interrupt_list", HList two_interrupts);
          ("registers", HList [plain_reg "CTRL" 0; reserved_entry;
                               plain_reg "DATA" 8]) ].

Definition node_uart : Element :=
  mkElement (Tag "peripheral") [] None None
    [ leaf "name" "uart0"; leaf "baseAddress" "0x40000000";
      interrupt_node "tx_done" "0"; interrupt_node "rx_ready" "1";
      mkElement (Tag "registers") [] None None
        [plain_node "CTRL" "0x0"; plain_node "DATA" "0x8"];
      mkElement CommentTag [] (Some "end of uart0") None [] ].

Definition small_tree : Element :=
  mkElement (Tag "register") [] None None
    [ mkElement (Tag "name") [] (Some " CTRL ") None [];
      mkElement (Tag "fields") [] None None [leaf "field" "EN"] ].

(** ** Containers that may stay empty *)

(** A node without text and without children whose tag is one of the four
    that [svd_node] makes before any child is known to follow. *)
Definition is_empty_container (e : Element) : bool :=
  match text e, children e with
  | None, [] =>
      has_tag "registers" e || has_tag "peripherals" e
      || has_tag "fields" e || has_tag "cluster" e
  | _, _ => false
  end.

Definition leaf_parent_or_empty (e : Element) : bool :=
  is_leaf e || is_parent e || is_empty_container e.

(** [formed e]: every node of the tree under [e] is a leaf, a parent or
    an empty container. *)
Definition formed (e : Element) : Prop :=
  Forall (fun n => leaf_parent_or_empty n = true) (nodes e).

(** A multireg among the members of a multireg, with an offset of its
    own, in a group whose least offset is 16. *)
Definition nested_member_at_16 : hjson :=
  HDict [ ("genoffset", HInt 16);
          ("multireg",
           HDict [ ("name", HStr "INNER"); ("desc", HStr "a group");
                   ("genregs", HList [plain_reg "R" 16]) ]) ].

Definition multireg_nested_at_16 : hjson :=
  HDict [ ("name", HStr "OUTER"); ("desc", HStr "a group");
          ("genregs", HList [plain_reg "R0" 20; nested_member_at_16]) ].

(** * Properties *)

(** ** Reasoning about the error monad *)

Lemma bind_Ok {A B : Type} (c : result A) (k : A -> result B) (b : B) :
  bind c k = Ok b -> exists a, c = Ok a /\ k a = Ok b.
Proof.
  destruct c as [a|e]; cbn; [eauto | discriminate].
Qed.

Lemma Ok_inj {A : Type} (a b : A) : Ok a = Ok b -> a = b.
Proof. congruence. Qed.

Lemma Some_inj {A : Type} (a b : A) : Some a = Some b -> a = b.
Proof. congruence. Qed.

Ltac inv_bind H :=
  repeat match type of H with
    | bind ?c _ = Ok _ =>
        let a := fresh "a" in
        let E := fresh "E" in
        apply bind_Ok in H; destruct H as (a & E & H)
    | (match ?x with pair _ _ => _ end) = _ => destruct x
    end.

Ltac case_if H :=
  match type of H with
  | (if ?b then _ else _) = _ => destruct b
  end.

(** ** Access modes *)

Lemma modes_lookup_str (s : string) :
  @modes_lookup (option access * option readAction * option modifiedWriteValues)
     (HStr s) modes <> None -> In s the_labels.
Proof.
  cbn.
  repeat match goal with
    | |- context [String.eqb s ?l] =>
        destruct (String.eqb_spec s l) as [->|_]; [cbn; tauto|]
    end.
  congruence.
Qed.

(** C1.  The access-mode mapping returns the triple of the table for the
    absent label and for each of the eight spelled-out labels, and it
    returns a triple for no other label. *)
Theorem sw_access_modes_table (reg label : hjson) :
  py_get reg "swaccess" = Ok label ->
  (label = HNone -> sw_access_modes reg = Ok (None, None, None)) /\
  (label = HStr "ro" -> sw_access_modes reg = Ok (Some read_only, None, None)) /\
  (label = HStr "rc" ->
     sw_access_modes reg = Ok (Some read_only, Some clear, None)) /\
  (label = HStr "rw" -> sw_access_modes reg = Ok (Some read_write, None, None)) /\
  (label = HStr "r0w1c" ->
     sw_access_modes reg = Ok (Some write_only, None, Some oneToClear)) /\
  (label = HStr "rw1s" ->
     sw_access_modes reg = Ok (Some read_write, None, Some oneToSet)) /\
  (label = HStr "rw1c" ->
     sw_access_modes reg = Ok (Some read_write, None, Some oneToClear)) /\
  (label = HStr "rw0c" ->
     sw_access_modes reg = Ok (Some read_write, None, Some zeroToClear)) /\
  (label = HStr "wo" -> sw_access_modes reg = Ok (Some write_only, None, None)) /\
  ((exists triple, sw_access_modes reg = Ok triple) <->
   label = HNone \/ exists s, label = HStr s /\ In s the_labels).
Proof.
  intros Hget. unfold sw_access_modes. rewrite Hget. cbn [bind].
  repeat split; try (intros ->; reflexivity).
  - intros [triple H]. destruct label as [|z|s|l|kvs]; try discriminate.
    + now left.
    + right. exists s. split; [reflexivity|].
      apply modes_lookup_str. unfold modes_getitem in H.
      destruct (modes_lookup (HStr s) modes); [discriminate | discriminate H].
  - intros [->|(s & -> & Hin)].
    + eexists. reflexivity.
    + cbn in Hin.
      repeat (destruct Hin as [<-|Hin]; [eexists; reflexivity|]).
      contradiction.
Qed.

(** ** Text children *)

Section Properties.

Variable rt : runtime.

Lemma find_text_children (name : string) (texts : list (string * pyobj))
    (rest : list Element) :
  find (has_tag name) (text_children rt texts ++ rest)%list =
  match first_text rt name texts with
  | Some s => Some (mkElement (Tag name) [] (Some s) None [])
  | None => find (has_tag name) rest
  end.
Proof.
  induction texts as [|[tg value] texts IH]; cbn; [reflexivity|].
  destruct (obj_is_none value); cbn.
  - rewrite andb_false_r. exact IH.
  - rewrite andb_true_r. unfold has_tag at 1. cbn.
    destruct (String.eqb_spec tg name) as [->|_]; [reflexivity | exact IH].
Qed.

Lemma children_svd_node (name : string) (texts : list (string * pyobj))
    (fs : list Element) :
  children (extend_node (svd_node rt (inl name) texts) fs) =
  (text_children rt texts ++ fs)%list.
Proof. reflexivity. Qed.

Lemma child_text_svd_node (tg name : string) (texts : list (string * pyobj))
    (fs : list Element) :
  child_text tg (extend_node (svd_node rt (inl name) texts) fs) =
  match first_text rt tg texts with
  | Some s => Some s
  | None => child_text tg (mkElement (Tag name) [] None None fs)
  end.
Proof.
  unfold child_text, find_child. rewrite children_svd_node, find_text_children.
  destruct (first_text rt tg texts); reflexivity.
Qed.

Lemma generate_all_fields_shape (flatten : bool) (fields : hjson)
    (fs : list Element) :
  generate_all_fields rt flatten fields = Ok fs ->
  fs = [] \/ exists cs, fs = [mkElement (Tag "fields") [] None None cs].
Proof.
  unfold generate_all_fields.
  destruct (negb flatten && negb (is_none fields)); intros H.
  - inv_bind H. apply Ok_inj in H. subst fs. right. eexists. reflexivity.
  - apply Ok_inj in H. subst fs. now left.
Qed.

(** ** Plain registers *)

Lemma child_text_no_fields (tg name : string) (fs : list Element) :
  (fs = [] \/ exists cs, fs = [mkElement (Tag "fields") [] None None cs]) ->
  String.eqb "fields" tg = false ->
  child_text tg (mkElement (Tag name) [] None None fs) = None.
Proof.
  intros [->|[cs ->]] Hne; unfold child_text, find_child; [reflexivity|].
  assert (H : has_tag tg (mkElement (Tag "fields") [] None None cs) = false)
    by exact Hne.
  cbn [children find]. rewrite H. reflexivity.
Qed.

(** C2, as the code has it.  A register whose only field carries the
    register's name up to case and starts at bit 0 compiles to a node
    without a fields child, and the text of its size child is the field's
    width in decimal. *)
Theorem flattened_register_shape
    (reg base f bitinfo : hjson) (fname rname : string) (width : Z)
    (node : Element) :
  py_get reg "fields" = Ok (HList [f]) ->
  py_getitem f "name" = Ok (HStr fname) ->
  py_getitem reg "name" = Ok (HStr rname) ->
  casefold rt fname = casefold rt rname ->
  py_getitem f "bitinfo" = Ok bitinfo ->
  py_index bitinfo 2 = Ok (HInt 0) ->
  py_index bitinfo 1 = Ok (HInt width) ->
  generate_register rt reg base = Ok node ->
  find_child "fields" node = None /\ child_text "size" node = Some (dec width).
Proof.
  intros Hfields Hfname Hrname Hfold Hbitinfo Hlsb Hwidth Hgen.
  unfold generate_register in Hgen. rewrite Hfields in Hgen. cbn [bind] in Hgen.
  assert (Hflat : flatten_of rt reg (HList [f]) = Ok true).
  { unfold flatten_of. cbn. rewrite Hfname. cbn. rewrite Hrname. cbn.
    rewrite Hfold, String.eqb_refl. cbn. rewrite Hbitinfo. cbn.
    rewrite Hlsb. reflexivity. }
  rewrite Hflat in Hgen. cbn [bind] in Hgen.
  change (py_index (HList [f]) 0) with (Ok f) in Hgen. cbn [bind] in Hgen.
  rewrite Hbitinfo in Hgen. cbn [bind] in Hgen.
  rewrite Hwidth in Hgen. cbn [bind] in Hgen.
  inv_bind Hgen. apply Ok_inj in Hgen. subst node.
  match goal with
  | H : generate_all_fields _ true _ = Ok ?fs |- _ =>
      apply Ok_inj in H; subst fs
  end.
  split.
  - unfold find_child. rewrite children_svd_node, find_text_children.
    reflexivity.
  - rewrite child_text_svd_node. reflexivity.
Qed.

(** C9.  On a register whose field list is present and empty the code
    emits a fields container without children. *)
Theorem empty_fields_container_emitted :
  generate_register rt reg_empty_fields (HInt 0) =
  Ok (mkElement (Tag "register") [] None None
        [ mkElement (Tag "name") [] (Some "CTRL") None [];
          mkElement (Tag "description") [] (Some "no fields") None [];
          mkElement (Tag "addressOffset") [] (Some "0x0") None [];
          mkElement (Tag "access") [] (Some (str_access rt read_write)) None [];
          mkElement (Tag "fields") [] None None [] ]).
Proof. reflexivity. Qed.

Lemma dict_lookup_set_other (k k' : string) (v : hjson)
    (kvs : list (string * hjson)) :
  k <> k' -> dict_lookup k' (dict_set k v kvs) = dict_lookup k' kvs.
Proof.
  intros Hne. induction kvs as [|[k0 v0] kvs IH]; cbn.
  - destruct (String.eqb_spec k' k); [congruence | reflexivity].
  - destruct (String.eqb_spec k k0) as [->|_]; cbn.
    + destruct (String.eqb_spec k' k0); [congruence | reflexivity].
    + rewrite IH. reflexivity.
Qed.

Lemma dict_lookup_set_same (k : string) (v : hjson)
    (kvs : list (string * hjson)) :
  dict_lookup k (dict_set k v kvs) = Some v.
Proof.
  induction kvs as [|[k0 v0] kvs IH]; cbn.
  - rewrite String.eqb_refl. reflexivity.
  - destruct (String.eqb_spec k k0) as [->|Hne]; cbn.
    + rewrite String.eqb_refl. reflexivity.
    + destruct (String.eqb_spec k k0); [contradiction | exact IH].
Qed.

Lemma child_text_register (tg : string) (texts : list (string * pyobj))
    (flatten : bool) (fields : hjson) (fs : list Element) :
  generate_all_fields rt flatten fields = Ok fs ->
  String.eqb "fields" tg = false ->
  child_text tg (extend_node (svd_node rt (inl "register") texts) fs) =
  first_text rt tg texts.
Proof.
  intros Hfs Hne. rewrite child_text_svd_node.
  destruct (first_text rt tg texts); [reflexivity|].
  apply child_text_no_fields; [|exact Hne].
  exact (generate_all_fields_shape _ _ _ Hfs).
Qed.

(** C10.  The access, readAction and modifiedWriteValues children of a
    compiled register are those of the register's own label; and when the
    register is flattened, any field that has the same name and bit
    information in place of the single field (whatever its label) compiles
    to the same node. *)
Theorem register_access_from_own_label
    (kvs fkvs fkvs' : list (string * hjson)) (base : hjson) (node : Element) :
  generate_register rt (HDict kvs) base = Ok node ->
  (exists a r m,
     sw_access_modes (HDict kvs) = Ok (a, r, m) /\
     child_text "access" node = option_map (str_access rt) a /\
     child_text "readAction" node = option_map (str_readAction rt) r /\
     child_text "modifiedWriteValues" node =
       option_map (str_modifiedWriteValues rt) m) /\
  (dict_lookup "fields" kvs = Some (HList [HDict fkvs]) ->
   flatten_of rt (HDict kvs) (HList [HDict fkvs]) = Ok true ->
   dict_lookup "name" fkvs' = dict_lookup "name" fkvs ->
   dict_lookup "bitinfo" fkvs' = dict_lookup "bitinfo" fkvs ->
   generate_register rt (HDict (dict_set "fields" (HList [HDict fkvs']) kvs)) base
   = Ok node).
Proof.
  intros Hgen. split.
  - unfold generate_register in Hgen. inv_bind Hgen.
    apply Ok_inj in Hgen. subst node.
    match goal with
    | H : sw_access_modes _ = Ok (?a, ?r, ?m) |- _ => exists a, r, m
    end.
    split; [assumption|].
    repeat split.
    all: erewrite child_text_register by (eassumption || reflexivity).
    all: cbn.
    all: match goal with
         | |- _ = option_map _ ?o => destruct o; reflexivity
         end.
  - intros Hfields Hflat Hname Hbitinfo. rewrite <- Hgen.
    set (kvs' := dict_set "fields" (HList [HDict fkvs']) kvs).
    assert (Hget : forall k, k <> "fields" ->
                     py_get (HDict kvs') k = py_get (HDict kvs) k).
    { intros k Hk. unfold py_get, kvs'.
      rewrite dict_lookup_set_other by congruence. reflexivity. }
    assert (Hitem : forall k, k <> "fields" ->
                      py_getitem (HDict kvs') k = py_getitem (HDict kvs) k).
    { intros k Hk. unfold py_getitem, kvs'.
      rewrite dict_lookup_set_other by congruence. reflexivity. }
    assert (Hfields' : py_get (HDict kvs') "fields" = Ok (HList [HDict fkvs'])).
    { unfold py_get, kvs'. rewrite dict_lookup_set_same. reflexivity. }
    assert (Hf0 : forall k, (k = "name" \/ k = "bitinfo") ->
                    py_getitem (HDict fkvs') k = py_getitem (HDict fkvs) k).
    { intros k [->| ->]; unfold py_getitem; [rewrite Hname | rewrite Hbitinfo];
        reflexivity. }
    assert (Hflat' : flatten_of rt (HDict kvs') (HList [HDict fkvs']) = Ok true).
    { rewrite <- Hflat. unfold flatten_of.
      change (py_index (HList [HDict fkvs']) 0) with (Ok (HDict fkvs')).
      change (py_index (HList [HDict fkvs]) 0) with (Ok (HDict fkvs)).
      cbn [bind is_none py_len].
      rewrite !Hf0 by tauto. rewrite Hitem by discriminate. reflexivity. }
    unfold generate_register, sw_access_modes.
    rewrite Hfields'. unfold py_get at 5. rewrite Hfields. cbn [bind].
    rewrite Hflat, Hflat'. cbn [bind].
    change (py_index (HList [HDict fkvs']) 0) with (Ok (HDict fkvs')).
    change (py_index (HList [HDict fkvs]) 0) with (Ok (HDict fkvs)).
    cbn [bind]. rewrite !Hf0 by tauto.
    rewrite !Hget by discriminate. rewrite !Hitem by discriminate.
    reflexivity.
Qed.

(** ** Unrecognised labels *)

Lemma modes_lookup_other (s : string) :
  ~ In s the_labels ->
  @modes_lookup (option access * option readAction * option modifiedWriteValues)
     (HStr s) modes = None.
Proof.
  intros Hnot.
  destruct (modes_lookup (HStr s) modes) eqn:E; [|reflexivity].
  exfalso. apply Hnot, modes_lookup_str. congruence.
Qed.

Lemma py_index_2_then_1 (v x : hjson) :
  py_index v 2 = Ok x -> exists y, py_index v 1 = Ok y.
Proof.
  destruct v as [|z|s|l|kvs]; cbn; try discriminate.
  - destruct s as [|c0 [|c1 [|c2 s]]]; cbn; try discriminate.
    intros _. eexists. reflexivity.
  - destruct l as [|v0 [|v1 [|v2 l]]]; cbn; try discriminate.
    intros _. eexists. reflexivity.
Qed.

(** Once the flatten test has come out true, reading the width succeeds. *)
Lemma flatten_size_ok (reg fields : hjson) :
  flatten_of rt reg fields = Ok true ->
  exists size,
    (f0 <- py_index fields 0 ;;
     bitinfo <- py_getitem f0 "bitinfo" ;;
     py_index bitinfo 1) = Ok size.
Proof.
  unfold flatten_of. destruct (is_none fields); [discriminate|].
  intros H. inv_bind H.
  destruct (negb (a =? 1)); [discriminate|].
  inv_bind H.
  destruct (negb a3); [discriminate|].
  inv_bind H.
  match goal with
  | H2 : py_index ?b 2 = Ok _ |- _ =>
      destruct (py_index_2_then_1 _ _ H2) as [size Hsize]
  end.
  exists size.
  repeat match goal with
         | E : ?c = Ok _ |- context [bind ?c _] => rewrite E; cbn [bind]
         end.
  exact Hsize.
Qed.

(** C7, as the code has it.  A label that is a string outside the table
    makes the access-mode mapping raise [KeyError] with the label as its
    only content; compiling a field with such a label, and compiling a
    register with such a label once its flatten test has been evaluated,
    raise the same error. *)
Theorem unrecognized_label_raises_KeyError
    (entry : hjson) (s : string) (base fields : hjson) (flatten : bool) :
  py_get entry "swaccess" = Ok (HStr s) ->
  ~ In s the_labels ->
  sw_access_modes entry = Raise (KeyError (HStr s)) /\
  generate_field rt entry = Raise (KeyError (HStr s)) /\
  (py_get entry "fields" = Ok fields ->
   flatten_of rt entry fields = Ok flatten ->
   generate_register rt entry base = Raise (KeyError (HStr s))).
Proof.
  intros Hget Hnot.
  assert (Hmodes : sw_access_modes entry = Raise (KeyError (HStr s))).
  { unfold sw_access_modes. rewrite Hget. cbn [bind]. unfold modes_getitem.
    rewrite (modes_lookup_other s Hnot). reflexivity. }
  split; [exact Hmodes|]. split.
  - unfold generate_field. rewrite Hmodes. reflexivity.
  - intros Hfields Hflat. unfold generate_register.
    rewrite Hfields. cbn [bind]. rewrite Hflat. cbn [bind].
    destruct flatten.
    + destruct (flatten_size_ok _ _ Hflat) as [size ->]. cbn [bind].
      rewrite Hmodes. reflexivity.
    + cbn [bind]. rewrite Hmodes. reflexivity.
Qed.

(** ** Substrings *)

Lemma substring_prefix (s : string) (m : nat) :
  String.length (substring 0 m s) = m ->
  exists post, s = substring 0 m s ++ post.
Proof.
  revert m. induction s as [|c s IH]; intros [|m] H; cbn in *.
  - exists "". reflexivity.
  - discriminate.
  - exists (String c s). reflexivity.
  - injection H as H. destruct (IH m H) as [post Hpost].
    exists post. rewrite <- Hpost. reflexivity.
Qed.

Lemma substring_split (s : string) (n m : nat) :
  String.length (substring n m s) = m ->
  exists pre post, s = pre ++ substring n m s ++ post.
Proof.
  revert s. induction n as [|n IH]; intros s H.
  - destruct (substring_prefix s m H) as [post Hpost].
    exists "", post. exact Hpost.
  - destruct s as [|c s].
    + destruct m; cbn in *; [|discriminate]. exists "", "". reflexivity.
    + cbn in *. destruct (IH s H) as (pre & post & Hs).
      exists (String c pre), post. cbn. rewrite <- Hs. reflexivity.
Qed.

Lemma substring_app_prefix (sub post : string) :
  substring 0 (String.length sub) (sub ++ post) = sub.
Proof.
  induction sub as [|c sub IH]; cbn.
  - destruct post; reflexivity.
  - rewrite IH. reflexivity.
Qed.

Lemma substring_app_skip (pre rest : string) (m : nat) :
  substring (String.length pre) m (pre ++ rest) = substring 0 m rest.
Proof.
  induction pre as [|c pre IH]; cbn; [reflexivity | exact IH].
Qed.

(** [find] answers a non-negative index exactly on the strings that
    contain the placeholder. *)
Lemma py_find_placeholder (s : string) :
  0 <= py_find "%s" s <-> has_placeholder s.
Proof.
  unfold py_find, has_placeholder. split.
  - destruct (String.index 0 "%s" s) as [n|] eqn:E; [intros _ | lia].
    apply index_correct1 in E.
    assert (Hlen : String.length (substring n (String.length "%s") s)
                   = String.length "%s") by (rewrite E; reflexivity).
    destruct (substring_split s n _ Hlen) as (pre & post & Hs).
    exists pre, post. rewrite E in Hs. exact Hs.
  - intros (pre & post & ->).
    destruct (String.index 0 "%s" (pre ++ "%s" ++ post)) as [n|] eqn:E; [lia|].
    exfalso.
    apply (index_correct3 0 (String.length pre)) in E;
      [|discriminate | apply Nat.le_0_l].
    apply E. rewrite substring_app_skip. apply substring_app_prefix.
Qed.

(** ** Windows *)

Lemma generate_register_inv (reg base : hjson) (node : Element) :
  generate_register rt reg base = Ok node ->
  exists name desc genoffset offset addr size mask rv rm a r m flatten fields fs,
    py_getitem reg "name" = Ok name /\
    py_getitem reg "genoffset" = Ok genoffset /\
    py_sub genoffset base = Ok offset /\
    hex_or_none offset = Ok addr /\
    generate_all_fields rt flatten fields = Ok fs /\
    node =
      extend_node
        (svd_node rt (inl "register")
           [ ("name", OJson name);
             ("description", OJson desc);
             ("addressOffset", OJson addr);
             ("size", OJson size);
             ("mask", OJson mask);
             ("resetValue", OJson rv);
             ("resetMask", OJson rm);
             ("access", opt OAccess a);
             ("readAction", opt OReadAction r);
             ("modifiedWriteValues", opt OModifiedWriteValues m) ]) fs.
Proof.
  unfold generate_register. intros H. inv_bind H.
  apply Ok_inj in H. subst node.
  repeat eexists; eassumption.
Qed.

Lemma find_set_first_text (name txt : string) (cs : list Element) (c : Element) :
  find (has_tag name) cs = Some c ->
  find (has_tag name) (set_first_text name txt cs) =
  Some (mkElement (tag c) (attrib c) (Some txt) (tail c) (children c)).
Proof.
  induction cs as [|c0 cs IH]; cbn; [discriminate|].
  destruct (has_tag name c0) eqn:E.
  - intros H. apply (f_equal (fun o => match o with Some x => x | None => c0 end)) in H.
    subst c0. destruct c as [t a tx tl ch]. cbn [find].
    change (has_tag name (mkElement t a (Some txt) tl ch))
      with (has_tag name (mkElement t a tx tl ch)).
    rewrite E. reflexivity.
  - intros H. cbn [find]. rewrite E. exact (IH H).
Qed.

(** C6.  The name of a compiled window register is the template name
    when that contains the placeholder, the template name followed by the
    placeholder otherwise, and contains the placeholder either way. *)
Theorem window_name_has_placeholder (window base : hjson) (node : Element) :
  generate_dim_register rt window base = Ok node ->
  exists name,
    py_getitem window "name" = Ok name /\
    (has_placeholder (py_str rt (OJson name)) ->
     child_text "name" node = Some (py_str rt (OJson name))) /\
    (~ has_placeholder (py_str rt (OJson name)) ->
     child_text "name" node = Some (py_str rt (OJson name) ++ "%s")) /\
    (exists t, child_text "name" node = Some t /\ has_placeholder t).
Proof.
  unfold generate_dim_register. intros H. inv_bind H.
  match goal with
  | Hreg : generate_register _ _ _ = Ok _ |- _ =>
      apply generate_register_inv in Hreg;
      destruct Hreg as (name & desc & genoffset & offset & addr & size & mask
                        & rv & rm & acc & ra & mwv & flatten & fields & fs
                        & Hname & _ & _ & _ & Hfs & ->)
  end.
  exists name. split; [exact Hname|].
  apply generate_all_fields_shape in Hfs.
  set (s := py_str rt (OJson name)).
  set (register := extend_node (svd_node rt (inl "register") _) fs) in H.
  set (dims := [("dim", OJson a0); ("dimIncrement", OJson a3)]) in H.
  assert (Hfind : find_child "name" (svd_node rt (inr register) dims) =
                  if is_none name then None
                  else Some (mkElement (Tag "name") [] (Some s) None [])).
  { unfold find_child, register.
    change (children (svd_node rt (inr (extend_node (svd_node rt (inl "register") ?t) fs)) dims))
      with ((text_children rt t ++ fs) ++ text_children rt dims)%list.
    rewrite <- app_assoc, find_text_children.
    destruct name; try reflexivity.
    destruct Hfs as [->|[cs ->]]; cbn; destruct a0, a3; reflexivity. }
  rewrite Hfind in H. destruct (is_none name) eqn:Hnone; [discriminate|].
  cbn [text] in H.
  destruct (py_find "%s" s <? 0) eqn:Hlt; apply Ok_inj in H; subst node.
  - apply Z.ltb_lt in Hlt.
    assert (Hout : child_text "name"
                     (set_child_text "name" (s ++ "%s")
                        (svd_node rt (inr register) dims)) = Some (s ++ "%s")).
    { unfold child_text, find_child in *.
      destruct (svd_node rt (inr register) dims) as [t a tx tl cs].
      cbn [set_child_text children] in *.
      rewrite (find_set_first_text _ _ _ _ Hfind). reflexivity. }
    split; [|split].
    + intros Hhas. apply py_find_placeholder in Hhas. lia.
    + intros _. exact Hout.
    + exists (s ++ "%s"). split; [exact Hout|]. exists s, "". reflexivity.
  - apply Z.ltb_ge in Hlt.
    assert (Hout : child_text "name" (svd_node rt (inr register) dims) = Some s).
    { unfold child_text. rewrite Hfind. reflexivity. }
    apply py_find_placeholder in Hlt.
    split; [|split].
    + intros _. exact Hout.
    + intros Hnot. contradiction.
    + exists s. split; assumption.
Qed.

(** ** Clusters *)

Lemma py_getitem_get (d : hjson) (k : string) (v : hjson) :
  py_getitem d k = Ok v -> py_get d k = Ok v.
Proof.
  destruct d; cbn; try discriminate.
  destruct (dict_lookup k kvs); [trivial | discriminate].
Qed.

Lemma py_getitem_contains (d : hjson) (k : string) (v : hjson) :
  py_getitem d k = Ok v -> py_contains k d = Ok true.
Proof.
  destruct d; cbn; try discriminate.
  destruct (dict_lookup k kvs); [trivial | discriminate].
Qed.

Lemma py_getitem_is_dict (d : hjson) (k : string) (v : hjson) :
  py_getitem d k = Ok v -> is_none d = false.
Proof. destruct d; cbn; (discriminate || reflexivity). Qed.

Lemma read_genoffset_member (reg : hjson) (o : Z) :
  member_offset reg o -> read_genoffset rt reg = Ok (HInt o).
Proof.
  intros [reg' o' _ _ _ _ _ Hoff | reg' window o' _ _ Hnone Hwin Hoff];
    unfold read_genoffset.
  - rewrite (py_getitem_get _ _ _ Hoff). reflexivity.
  - rewrite Hnone. cbn [bind is_none negb].
    rewrite (py_getitem_get _ _ _ Hwin). cbn [bind].
    rewrite (py_getitem_is_dict _ _ _ Hoff). exact Hoff.
Qed.

Lemma min_loop_ints (rest : list hjson) (offs : list Z) (current : Z) :
  Forall2 (fun reg o => read_genoffset rt reg = Ok (HInt o)) rest offs ->
  min_loop rt (HInt current) rest = Ok (HInt (fold_left Z.min offs current)).
Proof.
  intros H. revert current.
  induction H as [|reg o rest offs Hreg _ IH]; intros current; cbn;
    [reflexivity|].
  rewrite Hreg. cbn [bind py_lt].
  replace (if o <? current then HInt o else HInt current)
    with (HInt (Z.min current o)); [apply IH|].
  destruct (Z.ltb_spec o current); f_equal; lia.
Qed.

Lemma fold_left_min_spec (offs : list Z) (current : Z) :
  let m := fold_left Z.min offs current in
  In m (current :: offs) /\ Forall (fun o => m <= o) (current :: offs).
Proof.
  revert current. induction offs as [|o offs IH]; intros current; cbn.
  - split; [now left|]. repeat constructor. lia.
  - destruct (IH (Z.min current o)) as [Hin Hall]. cbn in Hin.
    inversion Hall as [|x l Hle Hrest]; subst. split.
    + destruct Hin as [Hin|Hin]; [|now right; right].
      destruct (Z.min_spec current o) as [[_ E]|[_ E]];
        [left | right; left]; congruence.
    + constructor; [lia|]. constructor; [lia | exact Hrest].
Qed.

Lemma generate_dim_register_inv (window base : hjson) (node : Element) :
  generate_dim_register rt window base = Ok node ->
  exists register items stride,
    generate_register rt window base = Ok register /\
    let dimensioned :=
      svd_node rt (inr register)
        [("dim", OJson items); ("dimIncrement", OJson stride)] in
    node = dimensioned \/
    exists name t txt,
      find_child "name" dimensioned = Some name /\
      text name = Some t /\
      node = set_child_text "name" txt dimensioned.
Proof.
  unfold generate_dim_register. intros H. inv_bind H.
  exists a, a0, a3. split; [assumption|]. cbv zeta.
  destruct (find_child "name" _) as [name|]; [|discriminate].
  destruct (text name) as [t|] eqn:Ht; [|discriminate].
  destruct (py_find "%s" t <? 0); apply Ok_inj in H; subst node.
  - right. exists name, t. eexists. repeat split. exact Ht.
  - left. reflexivity.
Qed.

Lemma find_set_first_text_other (name tg txt : string) (cs : list Element) :
  String.eqb name tg = false ->
  find (has_tag tg) (set_first_text name txt cs) = find (has_tag tg) cs.
Proof.
  intros Hne. induction cs as [|c cs IH]; cbn; [reflexivity|].
  destruct (has_tag name c) eqn:E.
  - destruct c as [t a tx tl ch]. cbn [find].
    change (has_tag tg (mkElement t a (Some txt) tl ch))
      with (has_tag tg (mkElement t a tx tl ch)).
    assert (Hno : has_tag tg (mkElement t a tx tl ch) = false).
    { unfold has_tag in *. cbn [tag] in *. destruct t as [t|]; [|reflexivity].
      apply String.eqb_eq in E. subst t. exact Hne. }
    rewrite Hno. reflexivity.
  - cbn [find]. rewrite IH. reflexivity.
Qed.

Lemma child_text_set_other (name tg txt : string) (e : Element) :
  String.eqb name tg = false ->
  child_text tg (set_child_text name txt e) = child_text tg e.
Proof.
  intros Hne. destruct e as [t a tx tl cs]. unfold child_text, find_child.
  cbn [set_child_text children].
  rewrite find_set_first_text_other by exact Hne. reflexivity.
Qed.

Lemma child_text_dimensioned (tg name : string)
    (texts dims : list (string * pyobj)) (fs : list Element) (s : string) :
  first_text rt tg texts = Some s ->
  child_text tg
    (svd_node rt (inr (extend_node (svd_node rt (inl name) texts) fs)) dims)
  = Some s.
Proof.
  intros Hfirst. unfold child_text, find_child.
  change (children (svd_node rt (inr (extend_node (svd_node rt (inl name) texts) fs)) dims))
    with ((text_children rt texts ++ fs) ++ text_children rt dims)%list.
  rewrite <- app_assoc, find_text_children, Hfirst. reflexivity.
Qed.

Lemma has_tag_set_child_text (tg name txt : string) (e : Element) :
  has_tag tg (set_child_text name txt e) = has_tag tg e.
Proof. destruct e; reflexivity. Qed.

(** What one member of a multireg compiles to. *)
Lemma generate_entry_member
    (all_registers : hjson -> hjson -> result (list Element))
    (reg : hjson) (o b : Z) (ns : list Element) :
  member_offset reg o ->
  generate_entry rt all_registers (HInt b) reg = Ok ns ->
  exists node,
    ns = [node] /\
    has_tag "register" node = true /\
    child_text "addressOffset" node = Some (HexString.of_Z (o - b)).
Proof.
  intros Hmember H. unfold generate_entry in H.
  destruct Hmember
    as [reg o Hres Hskip Hwin Hsame Hmulti Hoff | reg window o Hres Hskip _ Hwin Hoff].
  - rewrite Hres in H. cbn [bind] in H. rewrite Hskip in H. cbn [bind] in H.
    rewrite Hwin in H. cbn [bind] in H. rewrite Hsame in H. cbn [bind] in H.
    rewrite Hmulti in H. cbn [bind] in H.
    inv_bind H. apply Ok_inj in H. subst ns. exists a. split; [reflexivity|].
    destruct (generate_register_inv _ _ _ E)
      as (name & desc & genoffset & offset & addr & size & mask & rv & rm
          & acc & ra & mwv & flatten & fields & fs
          & _ & Hgen & Hsub & Hhex & Hfs & ->).
    rewrite Hoff in Hgen. apply Ok_inj in Hgen. subst genoffset.
    cbn in Hsub. apply Ok_inj in Hsub. subst offset.
    cbn in Hhex. apply Ok_inj in Hhex. subst addr.
    split; [reflexivity|].
    erewrite child_text_register by (eassumption || reflexivity).
    reflexivity.
  - rewrite Hres in H. cbn [bind] in H. rewrite Hskip in H. cbn [bind] in H.
    rewrite (py_getitem_contains _ _ _ Hwin) in H. cbn [bind] in H.
    rewrite Hwin in H. cbn [bind] in H.
    inv_bind H. apply Ok_inj in H. subst ns. exists a. split; [reflexivity|].
    destruct (generate_dim_register_inv _ _ _ E)
      as (register & items & stride & Hreg & Hnode).
    destruct (generate_register_inv _ _ _ Hreg)
      as (name & desc & genoffset & offset & addr & size & mask & rv & rm
          & acc & ra & mwv & flatten & fields & fs
          & _ & Hgen & Hsub & Hhex & Hfs & ->).
    rewrite Hoff in Hgen. apply Ok_inj in Hgen. subst genoffset.
    cbn in Hsub. apply Ok_inj in Hsub. subst offset.
    cbn in Hhex. apply Ok_inj in Hhex. subst addr.
    cbv zeta in Hnode.
    destruct Hnode as [->|(nm & t & txt & _ & _ & ->)].
    + split; [reflexivity|]. apply child_text_dimensioned. reflexivity.
    + rewrite has_tag_set_child_text, child_text_set_other by reflexivity.
      split; [reflexivity|]. apply child_text_dimensioned. reflexivity.
Qed.

Lemma mapM_members
    (all_registers : hjson -> hjson -> result (list Element))
    (b : Z) (members : list hjson) (offs : list Z) (nodes : list (list Element)) :
  Forall2 member_offset members offs ->
  mapM (generate_entry rt all_registers (HInt b)) members = Ok nodes ->
  forallb (has_tag "register") (concat nodes) = true /\
  map (child_text "addressOffset") (concat nodes) =
  map (fun o => Some (HexString.of_Z (o - b))) offs.
Proof.
  intros Hall. revert nodes.
  induction Hall as [|reg o members offs Hmember _ IH]; intros nodes H;
    cbn [mapM] in H.
  - apply Ok_inj in H. subst nodes. split; reflexivity.
  - inv_bind H. apply Ok_inj in H. subst nodes.
    destruct (generate_entry_member _ _ _ _ _ Hmember E)
      as (node & -> & Htag & Htext).
    destruct (IH _ E0) as [IHtag IHtext].
    cbn [concat app forallb map]. rewrite Htag, Htext, IHtag, IHtext.
    split; reflexivity.
Qed.

Lemma filter_all {A : Type} (p : A -> bool) (l : list A) :
  forallb p l = true -> filter p l = l.
Proof.
  induction l as [|x l IH]; cbn; [reflexivity|].
  destruct (p x); cbn; [|discriminate]. intros H. rewrite (IH H). reflexivity.
Qed.

(** C3.  A multireg compiled at the top level whose members are plain
    registers and windows gives a cluster whose address offset is the
    least absolute offset of the members, and whose register children
    carry, in member order, each member's absolute offset less that
    minimum, which is never negative. *)
Theorem cluster_offset_is_minimum
    (multi : hjson) (members : list hjson) (offs : list Z) (cluster : Element) :
  py_getitem multi "genregs" = Ok (HList members) ->
  Forall2 member_offset members offs ->
  generate_cluster rt multi (HInt 0) = Ok cluster ->
  exists m,
    In m offs /\
    Forall (fun o => m <= o) offs /\
    child_text "addressOffset" cluster = Some (HexString.of_Z m) /\
    map (child_text "addressOffset")
        (filter (has_tag "register") (children cluster)) =
      map (fun o => Some (HexString.of_Z (o - m))) offs /\
    Forall (fun o => 0 <= o - m) offs.
Proof.
  intros Hgenregs Hmembers H.
  unfold generate_cluster, generate_cluster_with in H.
  cbn [py_ne_int py_eq_int Z.eqb negb] in H.
  rewrite Hgenregs in H. cbn [bind] in H.
  assert (Hreads : Forall2 (fun reg o => read_genoffset rt reg = Ok (HInt o))
                     members offs).
  { eapply Forall2_impl; [|exact Hmembers].
    intros reg o. apply read_genoffset_member. }
  unfold min_genoffset in H. cbn [py_iter bind] in H.
  destruct Hreads as [|reg o members' offs' Hreg Hrest]; [discriminate|].
  rewrite Hreg in H. cbn [bind] in H.
  rewrite (min_loop_ints _ _ _ Hrest) in H. cbn [bind] in H.
  destruct (fold_left_min_spec offs' o) as [Hin Hle].
  set (m := fold_left Z.min offs' o) in *.
  inv_bind H. apply Ok_inj in H. subst cluster.
  cbn in E1. apply Ok_inj in E1. subst a1.
  exists m. split; [exact Hin|]. split; [exact Hle|].
  unfold generate_all_registers in E2. cbn [generate_all_registers_fuel] in E2.
  cbn [py_iter bind] in E2. inv_bind E2. apply Ok_inj in E2. subst a2.
  destruct (mapM_members _ _ _ _ _ Hmembers E1) as [Htags Htexts].
  split; [|split].
  - rewrite child_text_svd_node. reflexivity.
  - rewrite children_svd_node, filter_app, (filter_all _ _ Htags).
    replace (filter (has_tag "register") (text_children rt _)) with (@nil Element).
    + exact Htexts.
    + destruct a, a0; reflexivity.
  - eapply Forall_impl; [|exact Hle]. cbn. intros; lia.
Qed.

(** ** Entries without an offset *)

Lemma min_loop_raises (before after : list hjson) (reg : hjson) (current : Z)
    (e : exn) :
  Forall (fun r => exists o, read_genoffset rt r = Ok (HInt o)) before ->
  read_genoffset rt reg = Raise e ->
  min_loop rt (HInt current) (before ++ reg :: after) = Raise e.
Proof.
  intros Hbefore Hreg. revert current.
  induction Hbefore as [|r before [o Hr] _ IH]; intros current; cbn.
  - rewrite Hreg. reflexivity.
  - rewrite Hr. cbn [bind py_lt].
    destruct (o <? current); apply IH.
Qed.

(** C8, as the code has it.  A member of a top-level multireg that has
    neither an offset of its own nor a window, when every member before it
    has an integer offset, makes the cluster fail with [SystemExit] and a
    message that ends in the dump of that member. *)
Theorem missing_offset_in_cluster
    (multi : hjson) (before after : list hjson) (reg : hjson) :
  py_getitem multi "genregs" = Ok (HList (before ++ reg :: after)) ->
  Forall (fun r => exists o, read_genoffset rt r = Ok (HInt o)) before ->
  py_get reg "genoffset" = Ok HNone ->
  py_get reg "window" = Ok HNone ->
  read_genoffset rt reg = Raise (SystemExit (missing_offset_message rt reg)) /\
  generate_cluster rt multi (HInt 0) =
    Raise (SystemExit (missing_offset_message rt reg)).
Proof.
  intros Hgenregs Hbefore Hoff Hwin.
  assert (Hreg : read_genoffset rt reg =
                 Raise (SystemExit (missing_offset_message rt reg))).
  { unfold read_genoffset. rewrite Hoff. cbn [bind is_none negb].
    rewrite Hwin. reflexivity. }
  split; [exact Hreg|].
  unfold generate_cluster, generate_cluster_with.
  cbn [py_ne_int py_eq_int Z.eqb negb].
  rewrite Hgenregs. cbn [bind]. unfold min_genoffset. cbn [py_iter bind].
  destruct Hbefore as [|r before [o Hr] Hbefore]; cbn [app].
  - rewrite Hreg. reflexivity.
  - rewrite Hr. cbn [bind].
    rewrite (min_loop_raises _ _ _ _ _ Hbefore Hreg). reflexivity.
Qed.

(** A multireg among the members of a multireg is not always met with the
    nesting error: written as [reggen] writes entries, the inner entry has
    no offset of its own and the cluster fails on reading the offset;
    carrying offset 0, it is compiled into a cluster inside the cluster. *)
Theorem nested_multireg_not_rejected :
  generate_all_registers rt (HList [nested_multireg]) (HInt 0) =
    Raise (SystemExit (missing_offset_message rt inner_multireg)) /\
  missing_offset_message rt inner_multireg <> nesting_unsupported /\
  generate_all_registers rt (HList [nested_multireg_at_0]) (HInt 0) =
    Ok [ mkElement (Tag "cluster") [] None None
           [ mkElement (Tag "name") [] (Some "OUTER") None [];
             mkElement (Tag "description") [] (Some "a group") None [];
             mkElement (Tag "addressOffset") [] (Some "0x0") None [];
             mkElement (Tag "cluster") [] None None
               [ mkElement (Tag "name") [] (Some "INNER") None [];
                 mkElement (Tag "description") [] (Some "a group") None [];
                 mkElement (Tag "addressOffset") [] (Some "0x0") None [];
                 mkElement (Tag "register") [] None None
                   [ mkElement (Tag "name") [] (Some "R") None [];
                     mkElement (Tag "description") [] (Some "a register") None [];
                     mkElement (Tag "addressOffset") [] (Some "0x0") None [];
                     mkElement (Tag "access") [] (Some (str_access rt read_write))
                       None [] ] ] ] ].
Proof.
  split; [reflexivity|]. split; [|reflexivity].
  unfold missing_offset_message, nesting_unsupported. cbn. discriminate.
Qed.

(** ** The shape of the assembled tree *)

Lemma shaped_intro (e : Element) :
  never_both e = true -> Forall shaped (children e) -> shaped e.
Proof.
  intros Hroot Hchildren. unfold shaped. destruct e as [t a tx tl cs].
  cbn [nodes]. constructor; [exact Hroot|].
  apply Forall_flat_map. exact Hchildren.
Qed.

Lemma shaped_leaf (t : etag) (a : list (string * string)) (tx tl : option string) :
  shaped (mkElement t a tx tl []).
Proof.
  apply shaped_intro; [|constructor]. destruct tx; reflexivity.
Qed.

Lemma shaped_parent (t : etag) (a : list (string * string)) (tl : option string)
    (cs : list Element) :
  Forall shaped cs -> shaped (mkElement t a None tl cs).
Proof. intros H. apply shaped_intro; [reflexivity | exact H]. Qed.

Lemma shaped_text_children (texts : list (string * pyobj)) :
  Forall shaped (text_children rt texts).
Proof.
  induction texts as [|[tg value] texts IH]; cbn; [constructor|].
  destruct (obj_is_none value); [exact IH|].
  constructor; [apply shaped_leaf | exact IH].
Qed.

Lemma shaped_svd_node (name : string) (texts : list (string * pyobj))
    (fs : list Element) :
  Forall shaped fs ->
  shaped (extend_node (svd_node rt (inl name) texts) fs).
Proof.
  intros Hfs.
  change (extend_node (svd_node rt (inl name) texts) fs)
    with (mkElement (Tag name) [] None None (text_children rt texts ++ fs)).
  apply shaped_parent, Forall_app. split; [apply shaped_text_children | exact Hfs].
Qed.

Lemma shaped_svd_leafy (name : string) (texts : list (string * pyobj)) :
  shaped (svd_node rt (inl name) texts).
Proof.
  change (svd_node rt (inl name) texts)
    with (mkElement (Tag name) [] None None (text_children rt texts)).
  apply shaped_parent, shaped_text_children.
Qed.

Lemma mapM_Forall {A B : Type} (f : A -> result B) (P : B -> Prop)
    (l : list A) (ys : list B) :
  (forall x y, In x l -> f x = Ok y -> P y) ->
  mapM f l = Ok ys -> Forall P ys.
Proof.
  revert ys. induction l as [|x l IH]; intros ys Hf H; cbn [mapM] in H.
  - apply Ok_inj in H. subst ys. constructor.
  - inv_bind H. apply Ok_inj in H. subst ys. constructor.
    + apply (Hf x); [now left | assumption].
    + apply IH; [|assumption]. intros x' y' Hin. apply Hf. now right.
Qed.

Lemma Forall_concat {A : Type} (P : A -> Prop) (ls : list (list A)) :
  Forall (Forall P) ls -> Forall P (concat ls).
Proof.
  induction 1 as [|l ls Hl _ IH]; cbn; [constructor|].
  apply Forall_app. split; assumption.
Qed.

Lemma generate_field_shaped (bits : hjson) (node : Element) :
  generate_field rt bits = Ok node -> shaped node.
Proof.
  unfold generate_field. intros H. inv_bind H. apply Ok_inj in H. subst node.
  apply shaped_svd_leafy.
Qed.

Lemma generate_all_fields_shaped (flatten : bool) (fields : hjson)
    (fs : list Element) :
  generate_all_fields rt flatten fields = Ok fs -> Forall shaped fs.
Proof.
  unfold generate_all_fields.
  destruct (negb flatten && negb (is_none fields)); intros H.
  - inv_bind H. apply Ok_inj in H. subst fs. constructor; [|constructor].
    apply shaped_svd_node.
    eapply mapM_Forall; [|eassumption].
    intros x y _. apply generate_field_shaped.
  - apply Ok_inj in H. subst fs. constructor.
Qed.

Lemma generate_register_shaped (reg base : hjson) (node : Element) :
  generate_register rt reg base = Ok node -> shaped node.
Proof.
  intros H.
  destruct (generate_register_inv _ _ _ H)
    as (name & desc & genoffset & offset & addr & size & mask & rv & rm
        & acc & ra & mwv & flatten & fields & fs & _ & _ & _ & _ & Hfs & ->).
  apply shaped_svd_node. exact (generate_all_fields_shaped _ _ _ Hfs).
Qed.

Lemma shaped_children (e : Element) : shaped e -> Forall shaped (children e).
Proof.
  unfold shaped. destruct e as [t a tx tl cs]. cbn [nodes children].
  intros H. inversion H as [|x l _ Hrest]; subst.
  apply Forall_flat_map in Hrest. exact Hrest.
Qed.

Lemma shaped_text_no_children (e : Element) (t : string) :
  shaped e -> text e = Some t -> children e = [].
Proof.
  unfold shaped. destruct e as [tg a tx tl cs]. cbn [nodes text children].
  intros H ->. inversion H as [|x l Hroot _]; subst.
  destruct cs; [reflexivity | discriminate].
Qed.

Lemma set_first_text_shaped (name txt : string) (cs : list Element)
    (c : Element) (t : string) :
  Forall shaped cs ->
  find (has_tag name) cs = Some c ->
  text c = Some t ->
  Forall shaped (set_first_text name txt cs).
Proof.
  intros Hcs. revert c.
  induction Hcs as [|c0 cs Hc0 Hcs IH]; intros c Hfind Htext; cbn in *;
    [constructor|].
  destruct (has_tag name c0).
  - apply Some_inj in Hfind. subst c0.
    pose proof (shaped_text_no_children _ _ Hc0 Htext) as Hno.
    destruct c as [tg a tx tl ch]. cbn in Hno. subst ch.
    constructor; [apply shaped_leaf | exact Hcs].
  - constructor; [exact Hc0 | exact (IH _ Hfind Htext)].
Qed.

Lemma generate_dim_register_shaped (window base : hjson) (node : Element) :
  generate_dim_register rt window base = Ok node -> shaped node.
Proof.
  intros H.
  destruct (generate_dim_register_inv _ _ _ H)
    as (register & items & stride & Hreg & Hnode).
  cbv zeta in Hnode.
  pose proof (generate_register_shaped _ _ _ Hreg) as Hshaped.
  destruct (generate_register_inv _ _ _ Hreg)
    as (name & desc & genoffset & offset & addr & size & mask & rv & rm
        & acc & ra & mwv & flatten & fields & fs & _ & _ & _ & _ & Hfs & ->).
  apply shaped_children in Hshaped. rewrite children_svd_node in Hshaped.
  set (texts := [("name", OJson name); _; _; _; _; _; _; _; _; _]) in *.
  set (dims := [("dim", OJson items); ("dimIncrement", OJson stride)]) in *.
  change (svd_node rt (inr (extend_node (svd_node rt (inl "register") texts) fs)) dims)
    with (mkElement (Tag "register") [] None None
            ((text_children rt texts ++ fs) ++ text_children rt dims)) in Hnode.
  assert (Hcs : Forall shaped ((text_children rt texts ++ fs) ++ text_children rt dims)).
  { apply Forall_app. split; [exact Hshaped | apply shaped_text_children]. }
  destruct Hnode as [->|(nm & t & txt & Hfind & Htext & ->)].
  - apply shaped_parent, Hcs.
  - cbn [set_child_text]. apply shaped_parent.
    exact (set_first_text_shaped _ _ _ _ _ Hcs Hfind Htext).
Qed.

Section Recursion.

Variable all_registers : hjson -> hjson -> result (list Element).
Hypothesis all_registers_shaped :
  forall regs base nodes,
    all_registers regs base = Ok nodes -> Forall shaped nodes.

Lemma generate_cluster_with_shaped (multi base : hjson) (node : Element) :
  generate_cluster_with rt all_registers multi base = Ok node -> shaped node.
Proof.
  unfold generate_cluster_with. destruct (py_ne_int base 0); [discriminate|].
  intros H. inv_bind H. apply Ok_inj in H. subst node.
  apply shaped_svd_node. eapply all_registers_shaped. eassumption.
Qed.

Lemma generate_entry_shaped (base reg : hjson) (nodes : list Element) :
  generate_entry rt all_registers base reg = Ok nodes -> Forall shaped nodes.
Proof.
  unfold generate_entry. intros H. inv_bind H.
  case_if H; [apply Ok_inj in H; subst nodes; constructor|].
  inv_bind H. case_if H.
  { inv_bind H. apply Ok_inj in H. subst nodes.
    constructor; [|constructor].
    eapply generate_dim_register_shaped. eassumption. }
  inv_bind H. case_if H.
  { inv_bind H. eapply all_registers_shaped. eassumption. }
  inv_bind H. case_if H.
  { inv_bind H. apply Ok_inj in H. subst nodes.
    constructor; [|constructor].
    eapply generate_cluster_with_shaped. eassumption. }
  inv_bind H. apply Ok_inj in H. subst nodes.
  constructor; [|constructor].
  eapply generate_register_shaped. eassumption.
Qed.

End Recursion.

Lemma generate_all_registers_fuel_shaped (fuel : nat) (regs base : hjson)
    (nodes : list Element) :
  generate_all_registers_fuel rt fuel regs base = Ok nodes ->
  Forall shaped nodes.
Proof.
  revert regs base nodes.
  induction fuel as [|fuel IH]; intros regs base nodes H; cbn in H;
    [discriminate|].
  inv_bind H. apply Ok_inj in H. subst nodes.
  apply Forall_concat. eapply mapM_Forall; [|eassumption].
  intros reg ns _. apply generate_entry_shaped. exact IH.
Qed.

Lemma generate_all_interrupts_shaped (irqs : hjson) (nodes : list Element) :
  generate_all_interrupts rt irqs = Ok nodes -> Forall shaped nodes.
Proof.
  unfold generate_all_interrupts. destruct (is_none irqs); intros H.
  - apply Ok_inj in H. subst nodes. constructor.
  - inv_bind H. eapply mapM_Forall; [|eassumption].
    intros [num irq] node _ Hnode. unfold generate_interrupt in Hnode.
    cbn [fst snd] in Hnode. inv_bind Hnode. apply Ok_inj in Hnode. subst node.
    apply shaped_svd_leafy.
Qed.

Lemma generate_peripheral_shaped (module ip : hjson) (node : Element) :
  generate_peripheral rt module ip = Ok node -> shaped node.
Proof.
  unfold generate_peripheral. intros H. inv_bind H.
  apply Ok_inj in H. subst node.
  apply shaped_svd_node, Forall_app. split.
  - eapply generate_all_interrupts_shaped. eassumption.
  - constructor; [|constructor; [apply shaped_leaf | constructor]].
    apply shaped_svd_node.
    eapply generate_all_registers_fuel_shaped. eassumption.
Qed.

Lemma generate_peripherals_shaped (modules : hjson) (ips : list (string * hjson))
    (node : Element) :
  generate_peripherals rt modules ips = Ok node -> shaped node.
Proof.
  unfold generate_peripherals. intros H. inv_bind H.
  apply Ok_inj in H. subst node.
  apply shaped_svd_node. eapply mapM_Forall; [|eassumption].
  intros module p _ Hp. cbn beta in Hp. inv_bind Hp.
  eapply generate_peripheral_shaped. eassumption.
Qed.

(** In the tree [generate_device] assembles no node has both text and
    children. *)
Theorem assembled_tree_never_both
    (top : hjson) (ips : list (string * hjson)) (version description : string)
    (root : Element) :
  generate_device rt top ips version description = Ok root ->
  Forall (fun n => never_both n = true) (nodes root).
Proof.
  unfold generate_device. intros H. inv_bind H.
  apply Ok_inj in H. subst root.
  match goal with
  | |- Forall _ (nodes (extend_node (svd_node rt (inr (ET_Element ?n ?attrs)) ?texts) ?cs)) =>
      change (extend_node (svd_node rt (inr (ET_Element n attrs)) texts) cs)
        with (mkElement (Tag n) attrs None None (text_children rt texts ++ cs))
  end.
  apply shaped_parent, Forall_app. split; [apply shaped_text_children|].
  constructor; [apply shaped_svd_leafy|]. constructor; [|constructor].
  eapply generate_peripherals_shaped. eassumption.
Qed.

(** ** The recursion bound is never reached *)

Lemma In_list_max (n : nat) (l : list nat) :
  In n l -> (n <= list_max l)%nat.
Proof.
  induction l as [|k l IH]; [contradiction|].
  change (list_max (k :: l)) with (Nat.max k (list_max l)).
  intros [->|Hin]; [lia|]. specialize (IH Hin). lia.
Qed.

Lemma depth_In (x : hjson) (l : list hjson) :
  In x l -> (depth x < depth (HList l))%nat.
Proof.
  intros Hin.
  change (depth (HList l)) with (S (list_max (map depth l))).
  pose proof (In_list_max _ _ (in_map depth _ _ Hin)). lia.
Qed.

Lemma dict_lookup_In (k : string) (kvs : list (string * hjson)) (v : hjson) :
  dict_lookup k kvs = Some v -> exists k', In (k', v) kvs.
Proof.
  induction kvs as [|[k' v'] kvs IH]; cbn [dict_lookup]; [discriminate|].
  destruct (String.eqb k k').
  - intros H. apply Some_inj in H. subst v'. exists k'. now left.
  - intros H. destruct (IH H) as [k0 Hin]. exists k0. now right.
Qed.

Lemma depth_lookup (k : string) (kvs : list (string * hjson)) (v : hjson) :
  dict_lookup k kvs = Some v -> (depth v < depth (HDict kvs))%nat.
Proof.
  intros H. destruct (dict_lookup_In _ _ _ H) as [k' Hin].
  change (depth (HDict kvs))
    with (S (list_max (map (fun kv => depth (snd kv)) kvs))).
  pose proof (In_list_max _ _
                (in_map (fun kv : string * hjson => depth (snd kv)) _ _ Hin)) as Hle.
  cbn [snd] in Hle. lia.
Qed.

Lemma depth_getitem (d : hjson) (k : string) (v : hjson) :
  py_getitem d k = Ok v -> (depth v < depth d)%nat.
Proof.
  destruct d; cbn [py_getitem]; try discriminate.
  destruct (dict_lookup k kvs) eqn:E; [|discriminate].
  intros H. apply Ok_inj in H. subst h. exact (depth_lookup _ _ _ E).
Qed.

Lemma depth_string_chars (s : string) (x : hjson) :
  In x (string_chars s) -> depth x = O.
Proof.
  induction s as [|c s IH]; cbn; [contradiction|].
  intros [<-|Hin]; [reflexivity | exact (IH Hin)].
Qed.

Lemma depth_iter (regs : hjson) (items : list hjson) (x : hjson) :
  py_iter regs = Ok items -> In x items -> (depth x <= pred (depth regs))%nat.
Proof.
  destruct regs; cbn [py_iter]; try discriminate; intros H Hin;
    apply Ok_inj in H; subst items.
  - rewrite (depth_string_chars _ _ Hin). lia.
  - pose proof (depth_In _ _ Hin). lia.
  - apply in_map_iff in Hin. destruct Hin as (k & <- & _). cbn. lia.
Qed.

Lemma mapM_ext {A B : Type} (f g : A -> result B) (l : list A) :
  (forall x, In x l -> f x = g x) -> mapM f l = mapM g l.
Proof.
  induction l as [|x l IH]; intros H; cbn [mapM]; [reflexivity|].
  rewrite (H x) by now left. rewrite IH; [reflexivity|].
  intros y Hy. apply H. now right.
Qed.

(** The result of [generate_entry] depends on the callback only through
    its value on what is nested inside the entry. *)
Lemma generate_entry_ext
    (rec1 rec2 : hjson -> hjson -> result (list Element)) (base reg : hjson) :
  (forall sub b, (depth sub < depth reg)%nat -> rec1 sub b = rec2 sub b) ->
  generate_entry rt rec1 base reg = generate_entry rt rec2 base reg.
Proof.
  intros Hrec. unfold generate_entry.
  destruct (py_contains "reserved" reg) as [reserved|]; [|reflexivity].
  cbn [bind].
  destruct (if reserved then Ok true else py_contains "skipto" reg)
    as [[|]|]; try reflexivity.
  cbn [bind].
  destruct (py_contains "window" reg) as [[|]|]; try reflexivity.
  cbn [bind].
  destruct (py_contains "sameaddr" reg) as [[|]|]; try reflexivity; cbn [bind].
  - destruct (py_getitem reg "sameaddr") as [sameaddr|] eqn:E; [|reflexivity].
    cbn [bind]. apply Hrec. exact (depth_getitem _ _ _ E).
  - destruct (py_contains "multireg" reg) as [[|]|]; try reflexivity.
    cbn [bind].
    destruct (py_getitem reg "multireg") as [multi|] eqn:E; [|reflexivity].
    cbn [bind]. unfold generate_cluster_with.
    destruct (py_ne_int base 0); [reflexivity|].
    destruct (py_getitem multi "genregs") as [genregs|] eqn:E'; [|reflexivity].
    cbn [bind].
    destruct (min_genoffset rt genregs); [|reflexivity]. cbn [bind].
    destruct (py_getitem multi "name"); [|reflexivity]. cbn [bind].
    destruct (py_getitem multi "desc"); [|reflexivity]. cbn [bind].
    destruct (hex_or_none a); [|reflexivity]. cbn [bind].
    rewrite Hrec; [reflexivity|].
    pose proof (depth_getitem _ _ _ E). pose proof (depth_getitem _ _ _ E'). lia.
Qed.

Lemma generate_all_registers_fuel_stable (n m : nat) (regs base : hjson) :
  (depth regs <= n)%nat -> (n <= m)%nat ->
  generate_all_registers_fuel rt (S m) regs base =
  generate_all_registers_fuel rt (S n) regs base.
Proof.
  revert m regs base.
  induction n as [|n IH]; intros m regs base Hdepth Hle;
    cbn [generate_all_registers_fuel];
    destruct (py_iter regs) as [items|] eqn:Hiter; try reflexivity; cbn [bind].
  - erewrite mapM_ext; [reflexivity|].
    intros reg Hin. apply generate_entry_ext. intros sub b Hsub.
    pose proof (depth_iter _ _ _ Hiter Hin). lia.
  - erewrite mapM_ext; [reflexivity|].
    intros reg Hin. apply generate_entry_ext. intros sub b Hsub.
    pose proof (depth_iter _ _ _ Hiter Hin).
    destruct m as [|m]; [lia|]. apply IH; lia.
Qed.

(** [generate_all_registers] satisfies the recursive equation of the
    source: each entry is compiled with [generate_all_registers] itself as
    the callback. *)
Lemma generate_all_registers_unfold (regs base : hjson) :
  generate_all_registers rt regs base =
  (items <- py_iter regs ;;
   nodes <- mapM (generate_entry rt (generate_all_registers rt) base) items ;;
   Ok (concat nodes)).
Proof.
  unfold generate_all_registers at 1. cbn [generate_all_registers_fuel].
  destruct (py_iter regs) as [items|] eqn:Hiter; [|reflexivity]. cbn [bind].
  erewrite mapM_ext; [reflexivity|].
  intros reg Hin. apply generate_entry_ext. intros sub b Hsub.
  pose proof (depth_iter _ _ _ Hiter Hin).
  unfold generate_all_registers.
  destruct (depth regs) as [|d]; [lia|].
  apply generate_all_registers_fuel_stable; lia.
Qed.

(** No function of the compiler other than the bounded recursion itself
    raises [OutOfFuel], and the bound [generate_all_registers] starts from
    is never used up. *)

Lemma bind_fuel_free {A B : Type} (c : result A) (k : A -> result B) :
  c <> Raise OutOfFuel ->
  (forall a, c = Ok a -> k a <> Raise OutOfFuel) ->
  bind c k <> Raise OutOfFuel.
Proof.
  destruct c as [a|e]; cbn [bind]; intros Hc Hk; [exact (Hk a eq_refl)|].
  intros H. apply Hc. congruence.
Qed.

Ltac by_cases :=
  intros; cbv zeta;
  repeat match goal with
    | |- context [match ?v with _ => _ end] => destruct v
    end;
  discriminate.

Lemma py_get_fuel_free (d : hjson) (k : string) : py_get d k <> Raise OutOfFuel.
Proof. unfold py_get. by_cases. Qed.

Lemma py_getitem_fuel_free (d : hjson) (k : string) :
  py_getitem d k <> Raise OutOfFuel.
Proof. unfold py_getitem. by_cases. Qed.

Lemma py_index_fuel_free (d : hjson) (i : Z) : py_index d i <> Raise OutOfFuel.
Proof. unfold py_index. by_cases. Qed.

Lemma py_len_fuel_free (v : hjson) : py_len v <> Raise OutOfFuel.
Proof. unfold py_len. by_cases. Qed.

Lemma py_contains_fuel_free (k : string) (v : hjson) :
  py_contains k v <> Raise OutOfFuel.
Proof. unfold py_contains. destruct v; discriminate. Qed.

Lemma py_iter_fuel_free (v : hjson) : py_iter v <> Raise OutOfFuel.
Proof. unfold py_iter. by_cases. Qed.

Lemma py_sub_fuel_free (a b : hjson) : py_sub a b <> Raise OutOfFuel.
Proof. unfold py_sub. by_cases. Qed.

Lemma py_add_fuel_free (a b : hjson) : py_add a b <> Raise OutOfFuel.
Proof. unfold py_add. by_cases. Qed.

Lemma py_lt_fuel_free (a b : hjson) : py_lt rt a b <> Raise OutOfFuel.
Proof. unfold py_lt. by_cases. Qed.

Lemma fmt_d_fuel_free (v : hjson) : fmt_d v <> Raise OutOfFuel.
Proof. unfold fmt_d. by_cases. Qed.

Lemma py_int_truediv8_fuel_free (v : hjson) :
  py_int_truediv8 v <> Raise OutOfFuel.
Proof. unfold py_int_truediv8. by_cases. Qed.

Lemma case_compare_fuel_free (l r : hjson) :
  case_compare rt l r <> Raise OutOfFuel.
Proof. unfold case_compare. by_cases. Qed.

Lemma hex_or_none_fuel_free (num : hjson) : hex_or_none num <> Raise OutOfFuel.
Proof. unfold hex_or_none, py_hex. destruct num; discriminate. Qed.

Lemma sw_access_modes_fuel_free (reg : hjson) :
  sw_access_modes reg <> Raise OutOfFuel.
Proof.
  unfold sw_access_modes. apply bind_fuel_free; [apply py_get_fuel_free|].
  intros label _. unfold modes_getitem.
  destruct label; try discriminate;
    destruct (modes_lookup _ modes); discriminate.
Qed.

Create HintDb fuel.

#[local] Hint Resolve py_get_fuel_free py_getitem_fuel_free py_index_fuel_free
  py_len_fuel_free py_contains_fuel_free py_iter_fuel_free py_sub_fuel_free
  py_add_fuel_free py_lt_fuel_free fmt_d_fuel_free py_int_truediv8_fuel_free
  case_compare_fuel_free hex_or_none_fuel_free sw_access_modes_fuel_free : fuel.

Ltac fuel_free :=
  repeat first
    [ apply bind_fuel_free; [solve [auto with fuel] | intros ? _]
    | match goal with
      | |- (match ?x with pair _ _ => _ end) <> _ => destruct x
      | |- (if ?b then _ else _) <> _ => destruct b
      end ];
  try solve [auto with fuel | discriminate].

Lemma mapM_fuel_free {A B : Type} (f : A -> result B) (l : list A) :
  (forall x, In x l -> f x <> Raise OutOfFuel) ->
  mapM f l <> Raise OutOfFuel.
Proof.
  induction l as [|x l IH]; intros H; cbn [mapM]; [discriminate|].
  apply bind_fuel_free; [apply H; now left|]. intros y _.
  apply bind_fuel_free; [apply IH; intros; apply H; now right|].
  intros ys _. discriminate.
Qed.

Lemma generate_bitrange_fuel_free (bitinfo : hjson) :
  generate_bitrange bitinfo <> Raise OutOfFuel.
Proof. unfold generate_bitrange. fuel_free. Qed.

Lemma generate_field_fuel_free (bits : hjson) :
  generate_field rt bits <> Raise OutOfFuel.
Proof.
  pose proof generate_bitrange_fuel_free. unfold generate_field. fuel_free.
Qed.

Lemma flatten_of_fuel_free (reg fields : hjson) :
  flatten_of rt reg fields <> Raise OutOfFuel.
Proof. unfold flatten_of. fuel_free. Qed.

Lemma generate_all_fields_fuel_free (flatten : bool) (fields : hjson) :
  generate_all_fields rt flatten fields <> Raise OutOfFuel.
Proof.
  unfold generate_all_fields.
  destruct (negb flatten && negb (is_none fields)); [|discriminate].
  apply bind_fuel_free; [apply py_iter_fuel_free|]. intros items _.
  apply bind_fuel_free; [|intros; discriminate].
  apply mapM_fuel_free. intros. apply generate_field_fuel_free.
Qed.

Lemma generate_register_fuel_free (reg base : hjson) :
  generate_register rt reg base <> Raise OutOfFuel.
Proof.
  pose proof flatten_of_fuel_free. pose proof generate_all_fields_fuel_free.
  unfold generate_register.
  apply bind_fuel_free; [apply py_get_fuel_free|]. intros fields _.
  apply bind_fuel_free; [apply flatten_of_fuel_free|]. intros flatten _.
  apply bind_fuel_free; [destruct flatten; fuel_free|]. intros size _.
  fuel_free.
Qed.

Lemma generate_dim_register_fuel_free (window base : hjson) :
  generate_dim_register rt window base <> Raise OutOfFuel.
Proof.
  unfold generate_dim_register.
  apply bind_fuel_free; [apply generate_register_fuel_free|]. intros register _.
  fuel_free. by_cases.
Qed.

Lemma read_genoffset_fuel_free (reg : hjson) :
  read_genoffset rt reg <> Raise OutOfFuel.
Proof. unfold read_genoffset. fuel_free. Qed.

Lemma min_loop_fuel_free (current : hjson) (rest : list hjson) :
  min_loop rt current rest <> Raise OutOfFuel.
Proof.
  revert current. induction rest as [|reg rest IH]; intros current;
    cbn [min_loop]; [discriminate|].
  apply bind_fuel_free; [apply read_genoffset_fuel_free|]. intros item _.
  apply bind_fuel_free; [apply py_lt_fuel_free|]. intros less _. apply IH.
Qed.

Lemma min_genoffset_fuel_free (genregs : hjson) :
  min_genoffset rt genregs <> Raise OutOfFuel.
Proof.
  unfold min_genoffset. apply bind_fuel_free; [apply py_iter_fuel_free|].
  intros [|reg rest] _; [discriminate|].
  apply bind_fuel_free; [apply read_genoffset_fuel_free|]. intros first _.
  apply min_loop_fuel_free.
Qed.

Lemma generate_entry_fuel_free
    (all_registers : hjson -> hjson -> result (list Element)) (base reg : hjson) :
  (forall sub b, (depth sub < depth reg)%nat ->
                 all_registers sub b <> Raise OutOfFuel) ->
  generate_entry rt all_registers base reg <> Raise OutOfFuel.
Proof.
  intros Hrec. unfold generate_entry.
  apply bind_fuel_free; [apply py_contains_fuel_free|]. intros reserved _.
  apply bind_fuel_free; [destruct reserved; [discriminate | apply py_contains_fuel_free]|].
  intros [|] _; [discriminate|].
  apply bind_fuel_free; [apply py_contains_fuel_free|]. intros [|] _.
  { apply bind_fuel_free; [apply py_getitem_fuel_free|]. intros window _.
    apply bind_fuel_free; [apply generate_dim_register_fuel_free|].
    intros; discriminate. }
  apply bind_fuel_free; [apply py_contains_fuel_free|]. intros [|] _.
  { apply bind_fuel_free; [apply py_getitem_fuel_free|]. intros sameaddr E.
    apply Hrec. exact (depth_getitem _ _ _ E). }
  apply bind_fuel_free; [apply py_contains_fuel_free|]. intros [|] _.
  { apply bind_fuel_free; [apply py_getitem_fuel_free|]. intros multi E.
    apply bind_fuel_free; [|intros; discriminate].
    unfold generate_cluster_with. destruct (py_ne_int base 0); [discriminate|].
    apply bind_fuel_free; [apply py_getitem_fuel_free|]. intros genregs E'.
    apply bind_fuel_free; [apply min_genoffset_fuel_free|]. intros base' _.
    fuel_free.
    apply bind_fuel_free; [|intros; discriminate].
    apply Hrec.
    pose proof (depth_getitem _ _ _ E). pose proof (depth_getitem _ _ _ E'). lia. }
  apply bind_fuel_free; [apply generate_register_fuel_free|].
  intros; discriminate.
Qed.

Lemma generate_all_registers_fuel_enough (n : nat) (regs base : hjson) :
  (depth regs <= n)%nat ->
  generate_all_registers_fuel rt (S n) regs base <> Raise OutOfFuel.
Proof.
  revert regs base. induction n as [|n IH]; intros regs base Hdepth;
    cbn [generate_all_registers_fuel];
    (apply bind_fuel_free; [apply py_iter_fuel_free|]); intros items Hiter;
    (apply bind_fuel_free; [|intros; discriminate]);
    apply mapM_fuel_free; intros reg Hin;
    apply generate_entry_fuel_free; intros sub b Hsub;
    pose proof (depth_iter _ _ _ Hiter Hin).
  - lia.
  - apply IH. lia.
Qed.

(** [generate_all_registers] is total: on every register list it returns
    nodes or raises a Python exception. *)
Lemma generate_all_registers_total (regs base : hjson) :
  generate_all_registers rt regs base <> Raise OutOfFuel.
Proof.
  unfold generate_all_registers. apply generate_all_registers_fuel_enough. lia.
Qed.

(** ** Further facts about the compiler *)

(** The guard of [generate_cluster]: a base other than 0 is refused. *)
Lemma generate_cluster_nonzero_base (multi base : hjson) :
  py_ne_int base 0 = true ->
  generate_cluster rt multi base = Raise (SystemExit nesting_unsupported).
Proof.
  intros H. unfold generate_cluster, generate_cluster_with. rewrite H.
  reflexivity.
Qed.

(** The bit range of a field of [width] bits from bit [lsb] up. *)
Lemma generate_bitrange_ints (mask : hjson) (width lsb : Z) :
  generate_bitrange (HList [mask; HInt width; HInt lsb]) =
  Ok ("[" ++ dec (lsb + width - 1) ++ ":" ++ dec lsb ++ "]").
Proof. reflexivity. Qed.

(** A register that is not flattened and has a list of fields gets a
    fields container with one node per field, in order. *)
Lemma generate_all_fields_per_field (fields : list hjson) (fs : list Element) :
  mapM (generate_field rt) fields = Ok fs ->
  generate_all_fields rt false (HList fields) =
  Ok [mkElement (Tag "fields") [] None None fs].
Proof.
  intros H. unfold generate_all_fields. cbn [negb is_none andb py_iter bind].
  rewrite H. reflexivity.
Qed.

(** Indentation gives every node with children a text of its own: the
    tree is free of nodes with both text and children only before it. *)
Lemma indent_tree_parent_text (e : Element) (indent : string) :
  children e <> [] ->
  text (indent_tree rt e indent) = Some (indent ++ "  ") /\
  children (indent_tree rt e indent) <> [].
Proof.
  destruct e as [t a tx tl cs]. cbn [children]. intros Hcs.
  destruct cs as [|c cs]; [contradiction|].
  cbn [indent_tree text children List.length Nat.eqb negb map].
  split; [reflexivity|].
  destruct (indent_tree rt c (indent ++ "  ")) as [t' a' tx' tl' cs'].
  destruct (map (fun child => indent_tree rt child (indent ++ "  ")) cs);
    cbn [set_last_tail]; discriminate.
Qed.

(** ** How register lists compose *)

Lemma mapM_app {A B : Type} (f : A -> result B) (l1 l2 : list A) :
  mapM f (l1 ++ l2) =
  (xs <- mapM f l1 ;; ys <- mapM f l2 ;; Ok (xs ++ ys)%list).
Proof.
  induction l1 as [|x l1 IH]; cbn [mapM app bind].
  - destruct (mapM f l2); reflexivity.
  - destruct (f x) as [y|e]; cbn [bind]; [|reflexivity].
    rewrite IH. destruct (mapM f l1) as [xs|e]; cbn [bind]; [|reflexivity].
    destruct (mapM f l2); reflexivity.
Qed.

Lemma generate_all_registers_concat (l1 l2 : list hjson) (base : hjson) :
  generate_all_registers rt (HList (l1 ++ l2)) base =
  (nodes1 <- generate_all_registers rt (HList l1) base ;;
   nodes2 <- generate_all_registers rt (HList l2) base ;;
   Ok (nodes1 ++ nodes2)%list).
Proof.
  rewrite !generate_all_registers_unfold. cbn [py_iter bind].
  rewrite mapM_app.
  destruct (mapM _ l1) as [xs|e]; cbn [bind]; [|reflexivity].
  destruct (mapM _ l2) as [ys|e]; cbn [bind]; [|reflexivity].
  rewrite concat_app. reflexivity.
Qed.

(** Compiling a list of entries is compiling a first part and the rest in
    turn and joining the nodes; an exception of the first part comes
    before one of the rest. *)
Theorem generate_all_registers_app (l1 l2 : list hjson) (base : hjson) :
  generate_all_registers rt (HList (l1 ++ l2)) base =
  (nodes1 <- generate_all_registers rt (HList l1) base ;;
   nodes2 <- generate_all_registers rt (HList l2) base ;;
   Ok (nodes1 ++ nodes2)%list).
Proof. exact (generate_all_registers_concat l1 l2 base). Qed.

Lemma generate_all_registers_single (reg base : hjson) :
  generate_all_registers rt (HList [reg]) base =
  generate_entry rt (generate_all_registers rt) base reg.
Proof.
  rewrite generate_all_registers_unfold. cbn [py_iter bind mapM].
  destruct (generate_entry _ _ _ _) as [ns|e]; cbn [bind concat];
    [|reflexivity].
  rewrite app_nil_r. reflexivity.
Qed.

Lemma generate_all_registers_cons (reg : hjson) (regs : list hjson)
    (base : hjson) :
  generate_all_registers rt (HList (reg :: regs)) base =
  (nodes1 <- generate_entry rt (generate_all_registers rt) base reg ;;
   nodes2 <- generate_all_registers rt (HList regs) base ;;
   Ok (nodes1 ++ nodes2)%list).
Proof.
  change (reg :: regs) with ([reg] ++ regs)%list.
  rewrite generate_all_registers_concat, generate_all_registers_single.
  reflexivity.
Qed.

Lemma generate_entry_skipped
    (all_registers : hjson -> hjson -> result (list Element)) (base reg : hjson) :
  skipped_entry reg -> generate_entry rt all_registers base reg = Ok [].
Proof.
  unfold generate_entry. intros [H|[H1 H2]].
  - rewrite H. reflexivity.
  - rewrite H1. cbn [bind]. rewrite H2. reflexivity.
Qed.

(** A reserved or skipped entry anywhere in a register list changes
    nothing: the list compiles to what it compiles to without the entry. *)
Theorem skipped_entry_inert (before after : list hjson) (reg base : hjson) :
  skipped_entry reg ->
  generate_all_registers rt (HList (before ++ reg :: after)) base =
  generate_all_registers rt (HList (before ++ after)) base.
Proof.
  intros Hskip. rewrite !generate_all_registers_concat.
  rewrite generate_all_registers_cons, (generate_entry_skipped _ _ _ Hskip).
  cbn [bind app].
  destruct (generate_all_registers rt (HList before) base); cbn [bind];
    [|reflexivity].
  destruct (generate_all_registers rt (HList after) base); reflexivity.
Qed.

Lemma generate_entry_sameaddr (base reg sameaddr : hjson) :
  sameaddr_entry reg sameaddr ->
  generate_entry rt (generate_all_registers rt) base reg =
  generate_all_registers rt sameaddr base.
Proof.
  intros (Hres & Hskip & Hwin & Hsame). unfold generate_entry.
  rewrite Hres. cbn [bind]. rewrite Hskip. cbn [bind]. rewrite Hwin. cbn [bind].
  rewrite (py_getitem_contains _ _ _ Hsame). cbn [bind]. rewrite Hsame.
  reflexivity.
Qed.

(** A same-address group stands for its members: a register list with the
    group compiles to what the list with the members in the place of the
    group compiles to, at the same base. *)
Theorem sameaddr_group_spliced
    (before after members : list hjson) (reg base : hjson) :
  sameaddr_entry reg (HList members) ->
  generate_all_registers rt (HList (before ++ reg :: after)) base =
  generate_all_registers rt (HList (before ++ members ++ after)) base.
Proof.
  intros Hsame. rewrite !generate_all_registers_concat.
  rewrite generate_all_registers_cons, (generate_entry_sameaddr _ _ _ Hsame).
  reflexivity.
Qed.

Lemma generate_entry_plain
    (all_registers : hjson -> hjson -> result (list Element)) (base reg : hjson) :
  plain_entry reg ->
  generate_entry rt all_registers base reg =
  (register <- generate_register rt reg base ;; Ok [register]).
Proof.
  intros (Hres & Hskip & Hwin & Hsame & Hmulti). unfold generate_entry.
  rewrite Hres. cbn [bind]. rewrite Hskip. cbn [bind]. rewrite Hwin. cbn [bind].
  rewrite Hsame. cbn [bind]. rewrite Hmulti. reflexivity.
Qed.

(** A list of plain registers compiles register by register: one node per
    entry, in the order of the list, and the first register that fails
    gives the exception of the whole list. *)
Theorem plain_registers_compile_in_order (regs : list hjson) (base : hjson) :
  Forall plain_entry regs ->
  generate_all_registers rt (HList regs) base =
  mapM (fun reg => generate_register rt reg base) regs.
Proof.
  induction 1 as [|reg regs Hplain _ IH].
  - reflexivity.
  - rewrite generate_all_registers_cons, IH, (generate_entry_plain _ _ _ Hplain).
    cbn [mapM]. destruct (generate_register rt reg base); cbn [bind];
      [|reflexivity].
    destruct (mapM _ regs); reflexivity.
Qed.

(** A multireg compiled at a base other than 0, as happens inside a
    cluster whose least offset is not 0, stops the compilation with the
    nesting error as soon as the entries before it have been compiled,
    whatever the multireg contains. *)
Theorem multireg_at_nonzero_base_refused
    (before after : list hjson) (reg multi base : hjson)
    (nodes : list Element) :
  py_ne_int base 0 = true ->
  multireg_branch_entry reg multi ->
  generate_all_registers rt (HList before) base = Ok nodes ->
  generate_all_registers rt (HList (before ++ reg :: after)) base =
  Raise (SystemExit nesting_unsupported).
Proof.
  intros Hbase (Hres & Hskip & Hwin & Hsame & Hmulti) Hbefore.
  rewrite generate_all_registers_concat, Hbefore. cbn [bind].
  rewrite generate_all_registers_cons. unfold generate_entry.
  rewrite Hres. cbn [bind]. rewrite Hskip. cbn [bind]. rewrite Hwin. cbn [bind].
  rewrite Hsame. cbn [bind]. rewrite (py_getitem_contains _ _ _ Hmulti).
  cbn [bind]. rewrite Hmulti. cbn [bind]. unfold generate_cluster_with.
  rewrite Hbase. reflexivity.
Qed.

(** A multireg without generated registers has no least offset: the
    cluster is not produced, [min] of an empty sequence raises. *)
Theorem empty_multireg_raises_ValueError (multi : hjson) :
  py_getitem multi "genregs" = Ok (HList []) ->
  generate_cluster rt multi (HInt 0) = Raise ValueError.
Proof.
  intros H. unfold generate_cluster, generate_cluster_with.
  cbn [py_ne_int py_eq_int Z.eqb negb]. rewrite H. reflexivity.
Qed.

(** ** What a compiled register carries *)

Lemma child_text_svd_leafy (tg name : string) (texts : list (string * pyobj)) :
  child_text tg (svd_node rt (inl name) texts) = first_text rt tg texts.
Proof.
  unfold child_text, find_child.
  change (children (svd_node rt (inl name) texts)) with (text_children rt texts).
  rewrite <- (app_nil_r (text_children rt texts)), find_text_children.
  destruct (first_text rt tg texts); reflexivity.
Qed.

Lemma hex_or_none_Ok (num out : hjson) :
  hex_or_none num = Ok out ->
  (num = HNone /\ out = HNone) \/
  (exists z, num = HInt z /\ out = HStr (HexString.of_Z z)).
Proof.
  destruct num; cbn; try discriminate; intros H; apply Ok_inj in H; subst out.
  - now left.
  - right. eexists. split; reflexivity.
Qed.

(** For an integer width and an integer least significant bit the bit
    range reads from the most significant bit down to the least, in
    decimal; bit information that is a list too short to have positions 1
    and 2 raises [IndexError]. *)
Theorem generate_bitrange_integers (bitinfo : hjson) :
  (forall width lsb,
     py_index bitinfo 1 = Ok (HInt width) ->
     py_index bitinfo 2 = Ok (HInt lsb) ->
     generate_bitrange bitinfo =
       Ok ("[" ++ dec (lsb + width - 1) ++ ":" ++ dec lsb ++ "]")) /\
  (forall l,
     bitinfo = HList l -> (List.length l < 3)%nat ->
     generate_bitrange bitinfo = Raise IndexError).
Proof.
  split.
  - intros width lsb Hw Hl. unfold generate_bitrange. rewrite Hw, Hl.
    reflexivity.
  - intros l -> Hlen. destruct l as [|x0 [|x1 [|x2 l]]]; cbn in Hlen;
      try reflexivity. lia.
Qed.

(** The address offset of a compiled register is the hexadecimal string
    of the difference of two integers, the register's offset and the
    base; nothing keeps it from being negative. *)
Theorem register_address_offset (reg base : hjson) (node : Element) :
  generate_register rt reg base = Ok node ->
  exists o b,
    py_getitem reg "genoffset" = Ok (HInt o) /\
    base = HInt b /\
    child_text "addressOffset" node = Some (HexString.of_Z (o - b)).
Proof.
  intros H.
  destruct (generate_register_inv _ _ _ H)
    as (name & desc & genoffset & offset & addr & size & mask & rv & rm
        & acc & ra & mwv & flatten & fields & fs
        & _ & Hgen & Hsub & Hhex & Hfs & ->).
  destruct genoffset as [|o| | |]; try discriminate.
  destruct base as [|b| | |]; try discriminate.
  cbn in Hsub. apply Ok_inj in Hsub. subst offset.
  cbn in Hhex. apply Ok_inj in Hhex. subst addr.
  exists o, b. split; [exact Hgen|]. split; [reflexivity|].
  erewrite child_text_register by (eassumption || reflexivity). reflexivity.
Qed.

(** Mask, reset value and reset mask are passed through: the child is
    absent when the key is absent or [None], and holds the hexadecimal
    string of the integer otherwise. *)
Theorem register_optional_attributes (reg base : hjson) (node : Element) :
  generate_register rt reg base = Ok node ->
  forall key tg,
    In (key, tg) [ ("genbitsused", "mask"); ("genresval", "resetValue");
                   ("genresmask", "resetMask") ] ->
    exists v,
      py_get reg key = Ok v /\
      ((v = HNone /\ child_text tg node = None) \/
       (exists z, v = HInt z /\ child_text tg node = Some (HexString.of_Z z))).
Proof.
  unfold generate_register. intros H. inv_bind H.
  apply Ok_inj in H. subst node.
  intros key tg Hin. cbn [In] in Hin.
  destruct Hin as [Hk|[Hk|[Hk|[]]]]; apply pair_equal_spec in Hk;
    destruct Hk as [<- <-].
  all: match goal with
       | Hget : py_get ?r ?k = Ok ?v, Hhex : hex_or_none ?v = Ok _
         |- exists _, py_get ?r ?k = _ /\ _ =>
           exists v; split; [exact Hget|];
           destruct (hex_or_none_Ok _ _ Hhex) as [[-> ->]|(z & -> & ->)];
           [left | right; exists z]; (split; [reflexivity|])
       end.
  all: erewrite child_text_register by (eassumption || reflexivity).
  all: try reflexivity.
  all: cbn [first_text String.eqb Ascii.eqb Bool.eqb andb obj_is_none negb];
       cbn.
  all: repeat match goal with
         | |- context [opt _ ?o] => destruct o; cbn
         end; reflexivity.
Qed.

(** ** Flattening and fields *)

(** When a register is flattened.  Without a field list, or with one
    whose length is not 1, it is not; with a single field whose name and
    the register's are strings, it is not when the names differ after case
    folding, and when they agree it is flattened exactly when the integer
    at position 2 of the field's bit information is 0. *)
Theorem flatten_of_cases (reg fields : hjson) :
  (fields = HNone -> flatten_of rt reg fields = Ok false) /\
  (forall n,
     fields <> HNone -> py_len fields = Ok n -> n <> 1 ->
     flatten_of rt reg fields = Ok false) /\
  (forall f fname rname,
     py_len fields = Ok 1 ->
     py_index fields 0 = Ok f ->
     py_getitem f "name" = Ok (HStr fname) ->
     py_getitem reg "name" = Ok (HStr rname) ->
     (casefold rt fname <> casefold rt rname ->
      flatten_of rt reg fields = Ok false) /\
     (forall bitinfo lsb,
        casefold rt fname = casefold rt rname ->
        py_getitem f "bitinfo" = Ok bitinfo ->
        py_index bitinfo 2 = Ok (HInt lsb) ->
        flatten_of rt reg fields = Ok (lsb =? 0))).
Proof.
  unfold flatten_of. split; [intros ->; reflexivity|]. split.
  - intros n Hnone Hlen Hn.
    assert (His : is_none fields = false)
      by (destruct fields; (reflexivity || contradiction)).
    rewrite His, Hlen. cbn [bind].
    destruct (Z.eqb_spec n 1); [contradiction | reflexivity].
  - intros f fname rname Hlen Hf Hfname Hrname.
    assert (His : is_none fields = false)
      by (destruct fields; (discriminate || reflexivity)).
    rewrite His, Hlen. cbn [bind Z.eqb Pos.eqb negb].
    rewrite Hf. cbn [bind]. rewrite Hfname. cbn [bind].
    rewrite Hrname. cbn [bind case_compare]. split.
    + intros Hne.
      destruct (String.eqb_spec (casefold rt fname) (casefold rt rname));
        [contradiction | reflexivity].
    + intros bitinfo lsb Hfold Hbitinfo Hlsb.
      rewrite Hfold, String.eqb_refl. cbn [bind negb].
      rewrite Hbitinfo. cbn [bind]. rewrite Hlsb. reflexivity.
Qed.

Lemma mapM_length {A B : Type} (f : A -> result B) (l : list A) (ys : list B) :
  mapM f l = Ok ys -> List.length ys = List.length l.
Proof.
  revert ys. induction l as [|x l IH]; intros ys H; cbn [mapM] in H.
  - apply Ok_inj in H. subst ys. reflexivity.
  - inv_bind H. apply Ok_inj in H. subst ys. cbn [List.length].
    f_equal. apply IH. assumption.
Qed.

(** A compiled register that is not flattened and has a list of fields
    carries one fields container, and the container holds the compiled
    fields, one per field of the list and in its order. *)
Theorem unflattened_fields_in_order
    (reg base : hjson) (fields : list hjson) (node : Element) :
  py_get reg "fields" = Ok (HList fields) ->
  flatten_of rt reg (HList fields) = Ok false ->
  generate_register rt reg base = Ok node ->
  exists nodes,
    mapM (generate_field rt) fields = Ok nodes /\
    List.length nodes = List.length fields /\
    filter (has_tag "fields") (children node) =
      [mkElement (Tag "fields") [] None None nodes].
Proof.
  intros Hfields Hflat H. unfold generate_register in H.
  rewrite Hfields in H. cbn [bind] in H. rewrite Hflat in H. cbn [bind] in H.
  inv_bind H. apply Ok_inj in H. subst node.
  match goal with
  | Hfs : generate_all_fields _ false _ = Ok _ |- _ =>
      unfold generate_all_fields in Hfs;
      cbn [negb is_none andb py_iter bind] in Hfs; inv_bind Hfs;
      apply Ok_inj in Hfs; subst
  end.
  eexists. split; [eassumption|]. split.
  - eapply mapM_length. eassumption.
  - rewrite children_svd_node, filter_app.
    replace (filter (has_tag "fields") (text_children rt _)) with (@nil Element).
    + reflexivity.
    + cbn [text_children].
      repeat match goal with
        | |- context [obj_is_none ?o] => destruct (obj_is_none o)
        end; reflexivity.
Qed.

(** A compiled field carries its bit range, and its access children are
    those of the field's own label. *)
Theorem field_node_contents (bits : hjson) (node : Element) :
  generate_field rt bits = Ok node ->
  exists bitinfo range a r m,
    py_getitem bits "bitinfo" = Ok bitinfo /\
    generate_bitrange bitinfo = Ok range /\
    sw_access_modes bits = Ok (a, r, m) /\
    tag node = Tag "field" /\
    child_text "bitRange" node = Some range /\
    child_text "access" node = option_map (str_access rt) a /\
    child_text "readAction" node = option_map (str_readAction rt) r /\
    child_text "modifiedWriteValues" node =
      option_map (str_modifiedWriteValues rt) m.
Proof.
  unfold generate_field. intros H. inv_bind H. apply Ok_inj in H. subst node.
  do 5 eexists. split; [eassumption|]. split; [eassumption|].
  split; [eassumption|]. split; [reflexivity|].
  rewrite !child_text_svd_leafy.
  repeat split; cbn;
    repeat match goal with
      | |- context [opt _ ?o] => destruct o; cbn
      end; reflexivity.
Qed.

(** ** [svd_node] *)

(** [svd_node] on an element keeps the element's tag, attributes, text
    and tail and the children it has, and appends one leaf per keyword
    whose value is not [None], in the order of the keywords, each with the
    keyword as tag and the string of the value as text. *)
Theorem svd_node_appends (element : Element) (texts : list (string * pyobj)) :
  let node := svd_node rt (inr element) texts in
  let kept := filter (fun p => negb (obj_is_none (snd p))) texts in
  tag node = tag element /\
  attrib node = attrib element /\
  text node = text element /\
  tail node = tail element /\
  children node =
    (children element
       ++ map (fun p => mkElement (Tag (fst p)) [] (Some (py_str rt (snd p))) None [])
              kept)%list.
Proof.
  destruct element as [t a tx tl cs]. cbn [svd_node extend_node tag attrib text tail children].
  repeat split. f_equal.
  induction texts as [|[tg value] texts IH]; cbn [text_children filter map snd fst];
    [reflexivity|].
  destruct (obj_is_none value); cbn [negb map fst snd]; rewrite IH; reflexivity.
Qed.

(** The comparison of names is symmetric, also in what it raises. *)
Theorem case_compare_symmetric (left right : hjson) :
  case_compare rt left right = case_compare rt right left.
Proof.
  unfold case_compare. destruct left, right; try reflexivity.
  rewrite String.eqb_sym. reflexivity.
Qed.

(** ** Interrupts *)

Lemma mapM_interrupts (items : list hjson) (start : Z) (nodes : list Element) :
  mapM (fun p => generate_interrupt rt (fst p) (snd p))
       (enumerate_from start items) = Ok nodes ->
  List.length nodes = List.length items /\
  forall i irq,
    nth_error items i = Some irq ->
    exists node name,
      nth_error nodes i = Some node /\
      py_getitem irq "name" = Ok name /\
      tag node = Tag "interrupt" /\
      child_text "value" node = Some (dec (start + Z.of_nat i)) /\
      child_text "name" node =
        (if is_none name then None else Some (py_str rt (OJson name))).
Proof.
  revert start nodes.
  induction items as [|irq0 items IH]; intros start nodes H;
    cbn [enumerate_from mapM] in H.
  - apply Ok_inj in H. subst nodes. split; [reflexivity|].
    intros [|i] irq Hnth; discriminate.
  - cbn [fst snd] in H.
    destruct (generate_interrupt rt start irq0) as [node0|] eqn:Hnode;
      cbn [bind] in H; [|discriminate].
    destruct (mapM _ (enumerate_from (start + 1) items)) as [rest|] eqn:Hrest;
      cbn [bind] in H; [|discriminate].
    apply Ok_inj in H. subst nodes.
    destruct (IH _ _ Hrest) as [Hlen Hnth]. split; [cbn; congruence|].
    intros [|i] irq Hi; cbn [nth_error] in *.
    + apply Some_inj in Hi. subst irq0.
      unfold generate_interrupt in Hnode. inv_bind Hnode.
      apply Ok_inj in Hnode. subst node0.
      eexists. eexists. split; [reflexivity|]. split; [eassumption|].
      split; [reflexivity|]. rewrite !child_text_svd_leafy.
      rewrite Z.add_0_r. split; [destruct a; reflexivity|].
      destruct a; reflexivity.
    + destruct (Hnth i irq Hi) as (node & name & Hn & Hname & Htag & Hval & Hnm).
      exists node, name. repeat split; try assumption.
      rewrite Hval. do 2 f_equal. lia.
Qed.

(** Interrupts are numbered by position: no interrupt list gives no
    nodes, and a list gives one interrupt node per element, in order, the
    node at position [i] (from 0) carrying [i] as its value and the
    element's name. *)
Theorem interrupts_numbered_by_position (irqs : list hjson) (nodes : list Element) :
  generate_all_interrupts rt HNone = Ok [] /\
  (generate_all_interrupts rt (HList irqs) = Ok nodes ->
   List.length nodes = List.length irqs /\
   forall i irq,
     nth_error irqs i = Some irq ->
     exists node name,
       nth_error nodes i = Some node /\
       py_getitem irq "name" = Ok name /\
       tag node = Tag "interrupt" /\
       child_text "value" node = Some (dec (Z.of_nat i)) /\
       child_text "name" node =
         (if is_none name then None else Some (py_str rt (OJson name)))).
Proof.
  split; [reflexivity|]. unfold generate_all_interrupts.
  cbn [is_none py_iter bind]. intros H.
  exact (mapM_interrupts irqs 0 nodes H).
Qed.

(** ** The dimensions of a window *)

Lemma py_int_truediv8_small (n : Z) :
  0 <= n < 2 ^ 53 -> py_int_truediv8 (HInt n) = Ok (HInt (n / 8)).
Proof.
  intros [Hlo Hhi]. unfold py_int_truediv8, round53.
  rewrite (Z.abs_eq n Hlo).
  destruct (Z.ltb_spec n (2 ^ 53)) as [_|Hge]; [|lia].
  destruct (Z.leb_spec (2 ^ 1027) n) as [Hbig|_].
  - exfalso. assert (2 ^ 53 < 2 ^ 1027) by (apply Z.pow_lt_mono_r; lia). lia.
  - do 2 f_equal. destruct (Z.eq_dec n 0) as [->|Hne]; [reflexivity|].
    rewrite Z.sgn_pos by lia. lia.
Qed.

(** A compiled window carries the item count as [dim] and, for a count of
    valid bits from 0 up to 53 binary digits, the whole number of bytes in
    it as [dimIncrement], in hexadecimal. *)
Theorem window_dimensions (window base : hjson) (n : Z) (node : Element) :
  py_getitem window "genvalidbits" = Ok (HInt n) ->
  0 <= n < 2 ^ 53 ->
  generate_dim_register rt window base = Ok node ->
  exists items,
    py_getitem window "items" = Ok items /\
    child_text "dim" node =
      (if is_none items then None else Some (py_str rt (OJson items))) /\
    child_text "dimIncrement" node = Some (HexString.of_Z (n / 8)).
Proof.
  intros Hbits Hrange H. unfold generate_dim_register in H.
  destruct (generate_register rt window base) as [register|] eqn:Hreg;
    cbn [bind] in H; [|discriminate].
  destruct (py_getitem window "items") as [items|] eqn:Hitems;
    cbn [bind] in H; [|discriminate].
  rewrite Hbits in H. cbn [bind] in H.
  rewrite (py_int_truediv8_small n Hrange) in H. cbn [bind hex_or_none is_none py_hex] in H.
  exists items. split; [reflexivity|].
  destruct (generate_register_inv _ _ _ Hreg)
    as (name & desc & genoffset & offset & addr & size & mask & rv & rm
        & acc & ra & mwv & flatten & fields & fs & _ & _ & _ & _ & Hfs & ->).
  apply generate_all_fields_shape in Hfs.
  set (texts := [("name", OJson name); _; _; _; _; _; _; _; _; _]) in *.
  set (dims := [("dim", OJson items);
                ("dimIncrement", OJson (HStr (HexString.of_Z (n / 8))))]) in *.
  assert (Hdims : forall tg,
             first_text rt tg texts = None ->
             String.eqb "fields" tg = false ->
             child_text tg
               (svd_node rt (inr (extend_node (svd_node rt (inl "register") texts) fs))
                  dims) = first_text rt tg dims).
  { intros tg Hnone Hne. unfold child_text, find_child.
    change (children (svd_node rt (inr (extend_node (svd_node rt (inl "register") texts) fs)) dims))
      with ((text_children rt texts ++ fs) ++ text_children rt dims)%list.
    rewrite <- app_assoc, find_text_children, Hnone.
    assert (Hfields : forall rest, find (has_tag tg) (fs ++ rest)%list
                                   = find (has_tag tg) rest).
    { intros rest. destruct Hfs as [->|[cs ->]]; [reflexivity|].
      cbn [app find].
      change (has_tag tg (mkElement (Tag "fields") [] None None cs))
        with (String.eqb "fields" tg).
      rewrite Hne. reflexivity. }
    rewrite Hfields, <- (app_nil_r (text_children rt dims)), find_text_children.
    destruct (first_text rt tg dims); reflexivity. }
  assert (Hfinal : forall tg,
             first_text rt tg texts = None ->
             String.eqb "fields" tg = false ->
             String.eqb "name" tg = false ->
             child_text tg node = first_text rt tg dims).
  { intros tg Hnone Hne Hname.
    destruct (find_child "name" _) as [nm|]; [|discriminate].
    destruct (text nm) as [t|]; [|discriminate].
    destruct (py_find "%s" t <? 0); apply Ok_inj in H; subst node.
    - rewrite child_text_set_other by exact Hname. apply Hdims; assumption.
    - apply Hdims; assumption. }
  split.
  - rewrite Hfinal by reflexivity. destruct items; reflexivity.
  - rewrite Hfinal by reflexivity. cbn. destruct items; reflexivity.
Qed.

(** ** Peripherals *)

Lemma mapM_Forall2 {A B : Type} (f : A -> result B) (l : list A) (ys : list B) :
  mapM f l = Ok ys -> Forall2 (fun x y => f x = Ok y) l ys.
Proof.
  revert ys. induction l as [|x l IH]; intros ys H; cbn [mapM] in H.
  - apply Ok_inj in H. subst ys. constructor.
  - destruct (f x) as [y|] eqn:Hy; cbn [bind] in H; [|discriminate].
    destruct (mapM f l) as [ys'|]; cbn [bind] in H; [|discriminate].
    apply Ok_inj in H. subst ys. constructor; [exact Hy | apply IH; reflexivity].
Qed.

Lemma generate_all_interrupts_tags (irqs : hjson) (nodes : list Element) :
  generate_all_interrupts rt irqs = Ok nodes ->
  Forall (fun n => tag n = Tag "interrupt") nodes.
Proof.
  unfold generate_all_interrupts. destruct (is_none irqs); intros H.
  - apply Ok_inj in H. subst nodes. constructor.
  - inv_bind H. eapply mapM_Forall; [|eassumption].
    intros [num irq] node _ Hnode. unfold generate_interrupt in Hnode.
    cbn [fst snd] in Hnode. inv_bind Hnode. apply Ok_inj in Hnode. subst node.
    reflexivity.
Qed.

Lemma find_skip_tagged (tg other : string) (l rest : list Element) :
  Forall (fun n => tag n = Tag other) l ->
  String.eqb other tg = false ->
  find (has_tag tg) (l ++ rest)%list = find (has_tag tg) rest.
Proof.
  intros Hall Hne. induction Hall as [|n l Hn _ IH]; cbn [app find];
    [reflexivity|].
  unfold has_tag at 1. rewrite Hn, Hne. exact IH.
Qed.

Lemma filter_tagged (tg : string) (l : list Element) :
  Forall (fun n => tag n = Tag tg) l -> filter (has_tag tg) l = l.
Proof.
  intros Hall. apply filter_all.
  induction Hall as [|n l Hn _ IH]; cbn [forallb]; [reflexivity|].
  unfold has_tag at 1. rewrite Hn, String.eqb_refl. exact IH.
Qed.

Lemma last_two {A : Type} (l : list A) (a b d : A) :
  last (l ++ [a; b]) d = b.
Proof.
  change [a; b] with ([a] ++ [b])%list. rewrite app_assoc. apply last_last.
Qed.

(** A compiled peripheral holds, after its name and base address, the
    interrupt nodes of its interrupt list, then one registers container
    with the nodes of its register list compiled at base 0, and as its
    last child a comment that names the peripheral. *)
Theorem peripheral_contents (module ip : hjson) (node : Element) :
  generate_peripheral rt module ip = Ok node ->
  exists name irqs regs interrupts registers,
    py_getitem module "name" = Ok name /\
    py_get ip "interrupt_list" = Ok irqs /\
    generate_all_interrupts rt irqs = Ok interrupts /\
    py_getitem ip "registers" = Ok regs /\
    generate_all_registers rt regs (HInt 0) = Ok registers /\
    tag node = Tag "peripheral" /\
    filter (has_tag "interrupt") (children node) = interrupts /\
    find_child "registers" node =
      Some (mkElement (Tag "registers") [] None None registers) /\
    last (children node) node = ET_Comment ("end of " ++ py_str rt (OJson name)).
Proof.
  unfold generate_peripheral. intros H.
  destruct (py_getitem module "name") as [name|] eqn:Hname; cbn [bind] in H;
    [|discriminate].
  destruct (py_getitem module "base_addr") as [base_addr|]; cbn [bind] in H;
    [|discriminate].
  destruct (py_get ip "interrupt_list") as [irqs|] eqn:Hirqs; cbn [bind] in H;
    [|discriminate].
  destruct (generate_all_interrupts rt irqs) as [interrupts|] eqn:Hints;
    cbn [bind] in H; [|discriminate].
  destruct (py_getitem ip "registers") as [regs|] eqn:Hregs; cbn [bind] in H;
    [|discriminate].
  destruct (generate_all_registers rt regs (HInt 0)) as [registers|] eqn:Hgen;
    cbn [bind] in H; [|discriminate].
  apply Ok_inj in H. subst node.
  exists name, irqs, regs, interrupts, registers.
  pose proof (generate_all_interrupts_tags _ _ Hints) as Htags.
  do 6 (split; [first [reflexivity | assumption]|]).
  rewrite children_svd_node.
  set (texts := [("name", OJson name); ("baseAddress", OJson base_addr)]).
  assert (Hreg : extend_node (svd_node rt (inl "registers") []) registers
                 = mkElement (Tag "registers") [] None None registers)
    by reflexivity.
  rewrite Hreg. split; [|split].
  - rewrite !filter_app, (filter_tagged _ _ Htags).
    replace (filter (has_tag "interrupt") (text_children rt texts))
      with (@nil Element) by (destruct name, base_addr; reflexivity).
    cbn. rewrite app_nil_r. reflexivity.
  - unfold find_child. rewrite children_svd_node, find_text_children.
    cbn [first_text texts String.eqb Ascii.eqb Bool.eqb andb].
    rewrite (find_skip_tagged _ _ _ _ Htags) by reflexivity. reflexivity.
  - rewrite app_assoc. apply last_two.
Qed.

(** The peripherals container holds one peripheral per module, in the
    order of the module list, each compiled from the definition that the
    dictionary of IP blocks has under the module's type. *)
Theorem peripherals_in_module_order
    (modules : list hjson) (ips : list (string * hjson)) (node : Element) :
  generate_peripherals rt (HList modules) ips = Ok node ->
  tag node = Tag "peripherals" /\
  Forall2 (fun module p =>
             exists type ip,
               py_getitem module "type" = Ok (HStr type) /\
               dict_lookup type ips = Some ip /\
               generate_peripheral rt module ip = Ok p)
          modules (children node).
Proof.
  unfold generate_peripherals. cbn [py_iter bind]. intros H.
  destruct (mapM _ modules) as [ps|] eqn:Hps; cbn [bind] in H; [|discriminate].
  apply Ok_inj in H. subst node. split; [reflexivity|].
  change (children (extend_node (svd_node rt (inl "peripherals") []) ps)) with ps.
  apply mapM_Forall2 in Hps.
  eapply Forall2_impl; [|exact Hps].
  intros module p Hp. cbn beta in Hp.
  destruct (py_getitem module "type") as [type|] eqn:Htype; cbn [bind] in Hp;
    [|discriminate].
  destruct (ips_getitem ips type) as [ip|] eqn:Hip; cbn [bind] in Hp;
    [|discriminate].
  unfold ips_getitem in Hip. destruct type as [| |t| |]; try discriminate.
  destruct (dict_lookup t ips) as [ip'|] eqn:Hlookup; [|discriminate].
  apply Ok_inj in Hip. subst ip'.
  exists t, ip. repeat split; assumption.
Qed.

(** A module whose type the dictionary of IP blocks does not have stops
    the compilation with [KeyError] for the type, once the modules before
    it have been compiled. *)
Theorem unresolved_module_type_raises_KeyError
    (before after : list hjson) (module : hjson) (type : string)
    (ips : list (string * hjson)) (node : Element) :
  generate_peripherals rt (HList before) ips = Ok node ->
  py_getitem module "type" = Ok (HStr type) ->
  dict_lookup type ips = None ->
  generate_peripherals rt (HList (before ++ module :: after)) ips =
  Raise (KeyError (HStr type)).
Proof.
  unfold generate_peripherals. cbn [py_iter bind]. intros Hbefore Htype Hnone.
  rewrite mapM_app.
  destruct (mapM _ before) as [ps|]; cbn [bind] in *; [|discriminate].
  cbn [mapM]. rewrite Htype. cbn [bind ips_getitem]. rewrite Hnone.
  reflexivity.
Qed.

(** ** Indentation *)


Lemma indent_tree_tail (e : Element) (indent : string) :
  tail (indent_tree rt e indent) = Some indent.
Proof. destruct e. reflexivity. Qed.

Lemma indent_tree_tag (e : Element) (indent : string) :
  tag (indent_tree rt e indent) = tag e /\
  attrib (indent_tree rt e indent) = attrib e.
Proof. destruct e. split; reflexivity. Qed.

Lemma set_last_tail_cons (indent : string) (c c' : Element) (cs : list Element) :
  set_last_tail indent (c :: c' :: cs) = c :: set_last_tail indent (c' :: cs).
Proof. destruct c. reflexivity. Qed.

Lemma set_last_tail_length (indent : string) (cs : list Element) :
  List.length (set_last_tail indent cs) = List.length cs.
Proof.
  induction cs as [|c cs IH]; [reflexivity|].
  destruct cs as [|c' cs]; [destruct c; reflexivity|].
  rewrite set_last_tail_cons. cbn [List.length]. rewrite IH. reflexivity.
Qed.

Lemma set_last_tail_tails (indent inner : string) (cs : list Element) :
  cs <> [] ->
  Forall (fun c => tail c = Some inner) cs ->
  map tail (set_last_tail indent cs) =
  (repeat (Some inner) (List.length cs - 1) ++ [Some indent])%list.
Proof.
  intros Hne Hall. induction Hall as [|c cs Hc Hall IH]; [contradiction|].
  destruct cs as [|c' cs].
  - destruct c. reflexivity.
  - rewrite set_last_tail_cons.
    cbn [map]. rewrite IH by discriminate. rewrite Hc.
    cbn [List.length Nat.sub repeat app]. rewrite Nat.sub_0_r. reflexivity.
Qed.

(** The layout [indent_tree] gives one element: tag and attributes stay,
    the tail is the given indentation; a childless element keeps its text
    stripped; an element with children gets the deeper indentation as its
    text, keeps the number of its children, and every child's tail is the
    deeper indentation except the last one's, which is the element's own. *)
Theorem indent_tree_layout (e : Element) (indent : string) :
  let out := indent_tree rt e indent in
  tag out = tag e /\
  attrib out = attrib e /\
  tail out = Some indent /\
  List.length (children out) = List.length (children e) /\
  (children e = [] ->
   text out = option_map (strip rt) (text e)) /\
  (children e <> [] ->
   text out = Some (indent ++ "  ") /\
   map tail (children out) =
     (repeat (Some (indent ++ "  ")%string) (List.length (children e) - 1)
        ++ [Some indent])%list).
Proof.
  destruct e as [t a tx tl cs]. cbv zeta.
  cbn [indent_tree tag attrib tail text children].
  split; [reflexivity|]. split; [reflexivity|]. split; [reflexivity|].
  destruct cs as [|c cs].
  - split; [reflexivity|]. split; [|intros H; contradiction].
    intros _. destruct tx; reflexivity.
  - cbn [List.length Nat.eqb negb].
    set (cs' := map (fun child => indent_tree rt child (indent ++ "  ")) (c :: cs)).
    assert (Hlen : List.length cs' = S (List.length cs))
      by (unfold cs'; rewrite length_map; reflexivity).
    split; [rewrite set_last_tail_length; exact Hlen|].
    split; [discriminate|]. intros _. split; [reflexivity|].
    rewrite (set_last_tail_tails indent (indent ++ "  ")).
    + rewrite Hlen. reflexivity.
    + unfold cs'. discriminate.
    + unfold cs'. apply Forall_map, Forall_forall. intros x _.
      apply indent_tree_tail.
Qed.



(** ** The device and the whole conversion *)

(** The root of the assembled tree: the fixed schema attributes, the
    fixed vendor and address unit, the version and description given, the
    data width as both width and size, then the constant cpu element and
    the peripherals container. *)
Theorem device_root
    (top : hjson) (ips : list (string * hjson)) (version description : string)
    (root : Element) :
  generate_device rt top ips version description = Ok root ->
  tag root = Tag "device" /\
  attrib root =
    [ ("schemaVersion", "1.1");
      ("xmlns:xs", "http://www.w3.org/2001/XMLSchema-instance");
      ("xs:noNamespaceSchemaLocation", "CMSIS-SVD.xsd") ] /\
  child_text "vendor" root = Some "lowRISC" /\
  child_text "version" root = Some version /\
  child_text "description" root = Some description /\
  child_text "addressUnitBits" root = Some "8" /\
  (exists width,
     py_getitem top "datawidth" = Ok width /\
     child_text "width" root = child_text "size" root /\
     child_text "width" root =
       (if is_none width then None else Some (py_str rt (OJson width)))) /\
  (exists modules peripherals,
     py_getitem top "module" = Ok modules /\
     generate_peripherals rt modules ips = Ok peripherals /\
     find_child "cpu" root = Some (generate_cpu rt) /\
     find_child "peripherals" root = Some peripherals).
Proof.
  unfold generate_device. intros H.
  destruct (py_getitem top "name") as [name|]; cbn [bind] in H; [|discriminate].
  destruct (py_getitem top "datawidth") as [width|] eqn:Hwidth; cbn [bind] in H;
    [|discriminate].
  destruct (py_getitem top "module") as [modules|] eqn:Hmodules; cbn [bind] in H;
    [|discriminate].
  destruct (generate_peripherals rt modules ips) as [peripherals|] eqn:Hper;
    cbn [bind] in H; [|discriminate].
  apply Ok_inj in H. subst root.
  match goal with
  | |- context [extend_node (svd_node rt (inr (ET_Element ?n ?attrs)) ?texts) ?cs] =>
      change (extend_node (svd_node rt (inr (ET_Element n attrs)) texts) cs)
        with (mkElement (Tag n) attrs None None (text_children rt texts ++ cs));
      set (tx := texts)
  end.
  assert (Hct : forall tg s, first_text rt tg tx = Some s ->
            child_text tg (mkElement (Tag "device")
              [ ("schemaVersion", "1.1");
                ("xmlns:xs", "http://www.w3.org/2001/XMLSchema-instance");
                ("xs:noNamespaceSchemaLocation", "CMSIS-SVD.xsd") ] None None
              (text_children rt tx ++ [generate_cpu rt; peripherals])) = Some s).
  { intros tg s Hs. unfold child_text, find_child. cbn [children].
    rewrite find_text_children, Hs. reflexivity. }
  assert (Hper_tag : tag peripherals = Tag "peripherals").
  { unfold generate_peripherals in Hper. inv_bind Hper.
    apply Ok_inj in Hper. subst peripherals. reflexivity. }
  assert (Hrest : forall tg,
            String.eqb "cpu" tg = false -> String.eqb "peripherals" tg = false ->
            find (has_tag tg) [generate_cpu rt; peripherals] = None).
  { intros tg Hcpu Hp. cbn [find].
    change (has_tag tg (generate_cpu rt)) with (String.eqb "cpu" tg).
    rewrite Hcpu. unfold has_tag. rewrite Hper_tag, Hp. reflexivity. }
  split; [reflexivity|]. split; [reflexivity|].
  split; [apply Hct; destruct name; reflexivity|].
  split; [apply Hct; destruct name; reflexivity|].
  split; [apply Hct; destruct name; reflexivity|].
  split; [apply Hct; destruct name, width; reflexivity|].
  split.
  - exists width. split; [reflexivity|].
    unfold child_text, find_child. cbn [children].
    rewrite !find_text_children.
    destruct width;
      try (split; destruct name; reflexivity).
    replace (first_text rt "width" tx) with (@None string)
      by (destruct name; reflexivity).
    replace (first_text rt "size" tx) with (@None string)
      by (destruct name; reflexivity).
    rewrite !Hrest by reflexivity. split; reflexivity.
  - exists modules, peripherals. split; [reflexivity|]. split; [exact Hper|].
    unfold find_child. cbn [children]. rewrite !find_text_children.
    replace (first_text rt "cpu" tx) with (@None string)
      by (destruct name, width; reflexivity).
    replace (first_text rt "peripherals" tx) with (@None string)
      by (destruct name, width; reflexivity).
    split; [reflexivity|].
    cbn [find].
    change (has_tag "peripherals" (generate_cpu rt)) with false.
    unfold has_tag. rewrite Hper_tag, String.eqb_refl. reflexivity.
Qed.

(** ** Windows and multiregs as entries *)

Lemma find_app_elements (p : Element -> bool) (l1 l2 : list Element) :
  find p (l1 ++ l2)%list =
  match find p l1 with
  | Some x => Some x
  | None => find p l2
  end.
Proof.
  induction l1 as [|x l1 IH]; cbn [app find]; [reflexivity|].
  destruct (p x); [reflexivity | exact IH].
Qed.

(** Apart from its name and its two dimension children, a compiled window
    is the plain register compiled from its template: every other child,
    the fields container included, is found in the one as in the other. *)
Theorem window_like_plain_register (window base : hjson) (node : Element) :
  generate_dim_register rt window base = Ok node ->
  exists register,
    generate_register rt window base = Ok register /\
    tag node = tag register /\
    forall tg,
      String.eqb "name" tg = false ->
      String.eqb "dim" tg = false ->
      String.eqb "dimIncrement" tg = false ->
      find_child tg node = find_child tg register.
Proof.
  intros H.
  destruct (generate_dim_register_inv _ _ _ H)
    as (register & items & stride & Hreg & Hnode).
  cbv zeta in Hnode. exists register. split; [exact Hreg|].
  set (dims := [("dim", OJson items); ("dimIncrement", OJson stride)]) in *.
  assert (Hdim : forall tg,
            String.eqb "dim" tg = false ->
            String.eqb "dimIncrement" tg = false ->
            find_child tg (svd_node rt (inr register) dims) = find_child tg register).
  { intros tg Hd Hi. unfold find_child. destruct register as [t a tx tl cs].
    cbn [svd_node extend_node children]. rewrite find_app_elements.
    destruct (find (has_tag tg) cs); [reflexivity|].
    rewrite <- (app_nil_r (text_children rt dims)), find_text_children.
    unfold dims. cbn [first_text]. rewrite Hd, Hi. reflexivity. }
  destruct Hnode as [->|(nm & t & txt & _ & _ & ->)].
  - split; [destruct register; reflexivity|]. intros tg _. apply Hdim.
  - split; [destruct register; reflexivity|]. intros tg Hname Hd Hi.
    rewrite <- (Hdim tg Hd Hi). unfold find_child.
    destruct (svd_node rt (inr register) dims) as [t' a' tx' tl' cs'].
    cbn [set_child_text children].
    apply find_set_first_text_other. exact Hname.
Qed.

(** A window entry and a top-level multireg entry each put exactly one
    node in the place of the entry: the dimensioned register of the
    window, the cluster of the multireg. *)
Theorem window_and_multireg_entries_one_node
    (before after : list hjson) (reg inner base : hjson) :
  (py_contains "reserved" reg = Ok false ->
   py_contains "skipto" reg = Ok false ->
   py_getitem reg "window" = Ok inner ->
   generate_all_registers rt (HList (before ++ reg :: after)) base =
   (nodes1 <- generate_all_registers rt (HList before) base ;;
    register <- generate_dim_register rt inner base ;;
    nodes2 <- generate_all_registers rt (HList after) base ;;
    Ok (nodes1 ++ register :: nodes2)%list)) /\
  (multireg_branch_entry reg inner ->
   generate_all_registers rt (HList (before ++ reg :: after)) base =
   (nodes1 <- generate_all_registers rt (HList before) base ;;
    cluster <- generate_cluster rt inner base ;;
    nodes2 <- generate_all_registers rt (HList after) base ;;
    Ok (nodes1 ++ cluster :: nodes2)%list)).
Proof.
  split.
  - intros Hres Hskip Hwin.
    rewrite generate_all_registers_concat, generate_all_registers_cons.
    unfold generate_entry. rewrite Hres. cbn [bind]. rewrite Hskip. cbn [bind].
    rewrite (py_getitem_contains _ _ _ Hwin). cbn [bind]. rewrite Hwin.
    cbn [bind].
    destruct (generate_all_registers rt (HList before) base); cbn [bind];
      [|reflexivity].
    destruct (generate_dim_register rt inner base); cbn [bind]; [|reflexivity].
    destruct (generate_all_registers rt (HList after) base); reflexivity.
  - intros (Hres & Hskip & Hwin & Hsame & Hmulti).
    rewrite generate_all_registers_concat, generate_all_registers_cons.
    unfold generate_entry. rewrite Hres. cbn [bind]. rewrite Hskip. cbn [bind].
    rewrite Hwin. cbn [bind]. rewrite Hsame. cbn [bind].
    rewrite (py_getitem_contains _ _ _ Hmulti). cbn [bind]. rewrite Hmulti.
    cbn [bind]. fold (generate_cluster rt inner base).
    destruct (generate_all_registers rt (HList before) base); cbn [bind];
      [|reflexivity].
    destruct (generate_cluster rt inner base); cbn [bind]; [|reflexivity].
    destruct (generate_all_registers rt (HList after) base); reflexivity.
Qed.

(** ** Leaves, parents and empty containers *)

Lemma formed_intro (e : Element) :
  leaf_parent_or_empty e = true -> Forall formed (children e) -> formed e.
Proof.
  intros Hroot Hchildren. unfold formed. destruct e as [t a tx tl cs].
  cbn [nodes]. constructor; [exact Hroot|].
  apply Forall_flat_map. exact Hchildren.
Qed.

Lemma formed_leaf (t : etag) (a : list (string * string)) (s : string)
    (tl : option string) :
  formed (mkElement t a (Some s) tl []).
Proof. apply formed_intro; [reflexivity | constructor]. Qed.

Lemma formed_parent (t : etag) (a : list (string * string)) (tl : option string)
    (cs : list Element) :
  cs <> [] -> Forall formed cs -> formed (mkElement t a None tl cs).
Proof.
  intros Hne H. apply formed_intro; [|exact H].
  destruct cs; [contradiction | reflexivity].
Qed.

Lemma formed_container (name : string) (a : list (string * string))
    (tl : option string) (cs : list Element) :
  In name ["registers"; "peripherals"; "fields"; "cluster"] ->
  Forall formed cs -> formed (mkElement (Tag name) a None tl cs).
Proof.
  intros Hin H. destruct cs as [|c cs]; [|apply formed_parent; [discriminate | exact H]].
  apply formed_intro; [|constructor].
  cbn in Hin. destruct Hin as [<-|[<-|[<-|[<-|[]]]]]; reflexivity.
Qed.

Lemma formed_text_children (texts : list (string * pyobj)) :
  Forall formed (text_children rt texts).
Proof.
  induction texts as [|[tg value] texts IH]; cbn; [constructor|].
  destruct (obj_is_none value); [exact IH|].
  constructor; [apply formed_leaf | exact IH].
Qed.

Lemma text_children_not_nil (tg : string) (value : pyobj)
    (texts : list (string * pyobj)) :
  In (tg, value) texts -> obj_is_none value = false ->
  text_children rt texts <> [].
Proof.
  intros Hin Hvalue. induction texts as [|[tg' value'] texts IH];
    [contradiction|].
  cbn [text_children]. destruct (obj_is_none value') eqn:E; [|discriminate].
  destruct Hin as [Heq|Hin]; [|exact (IH Hin)].
  apply pair_equal_spec in Heq. destruct Heq as [_ ->]. congruence.
Qed.

(** A node made by [svd_node] from a tag, with at least one keyword that
    is not [None], followed by further children. *)
Lemma formed_svd_node (name tg : string) (value : pyobj)
    (texts : list (string * pyobj)) (fs : list Element) :
  In (tg, value) texts -> obj_is_none value = false ->
  Forall formed fs ->
  formed (extend_node (svd_node rt (inl name) texts) fs).
Proof.
  intros Hin Hvalue Hfs.
  change (extend_node (svd_node rt (inl name) texts) fs)
    with (mkElement (Tag name) [] None None (text_children rt texts ++ fs)).
  apply formed_parent.
  - pose proof (text_children_not_nil _ _ _ Hin Hvalue) as Hne.
    destruct (text_children rt texts); [contradiction | discriminate].
  - apply Forall_app. split; [apply formed_text_children | exact Hfs].
Qed.

Lemma formed_svd_container (name : string) (texts : list (string * pyobj))
    (fs : list Element) :
  In name ["registers"; "peripherals"; "fields"; "cluster"] ->
  Forall formed fs ->
  formed (extend_node (svd_node rt (inl name) texts) fs).
Proof.
  intros Hin Hfs.
  change (extend_node (svd_node rt (inl name) texts) fs)
    with (mkElement (Tag name) [] None None (text_children rt texts ++ fs)).
  apply formed_container; [exact Hin|].
  apply Forall_app. split; [apply formed_text_children | exact Hfs].
Qed.

Lemma generate_field_formed (bits : hjson) (node : Element) :
  generate_field rt bits = Ok node -> formed node.
Proof.
  unfold generate_field. intros H. inv_bind H. apply Ok_inj in H. subst node.
  match goal with
  | |- formed (svd_node rt (inl ?n) ?texts) =>
      change (svd_node rt (inl n) texts)
        with (mkElement (Tag n) [] None None (text_children rt texts))
  end.
  apply formed_parent; [|apply formed_text_children].
  eapply (text_children_not_nil "bitRange");
    [cbn; right; right; left; reflexivity | reflexivity].
Qed.

Lemma generate_all_fields_formed (flatten : bool) (fields : hjson)
    (fs : list Element) :
  generate_all_fields rt flatten fields = Ok fs -> Forall formed fs.
Proof.
  unfold generate_all_fields.
  destruct (negb flatten && negb (is_none fields)); intros H.
  - inv_bind H. apply Ok_inj in H. subst fs. constructor; [|constructor].
    apply formed_svd_container; [cbn; tauto|].
    eapply mapM_Forall; [|eassumption].
    intros x y _. apply generate_field_formed.
  - apply Ok_inj in H. subst fs. constructor.
Qed.

Lemma generate_register_formed (reg base : hjson) (node : Element) :
  generate_register rt reg base = Ok node -> formed node.
Proof.
  intros H.
  destruct (generate_register_inv _ _ _ H)
    as (name & desc & genoffset & offset & addr & size & mask & rv & rm
        & acc & ra & mwv & flatten & fields & fs
        & _ & _ & Hsub & Hhex & Hfs & ->).
  assert (Haddr : obj_is_none (OJson addr) = false).
  { destruct genoffset, base; try discriminate.
    cbn in Hsub. apply Ok_inj in Hsub. subst offset.
    cbn in Hhex. apply Ok_inj in Hhex. subst addr. reflexivity. }
  eapply (formed_svd_node _ "addressOffset");
    [cbn; right; right; left; reflexivity | exact Haddr
    | exact (generate_all_fields_formed _ _ _ Hfs)].
Qed.

Lemma formed_children (e : Element) : formed e -> Forall formed (children e).
Proof.
  unfold formed. destruct e as [t a tx tl cs]. cbn [nodes children].
  intros H. inversion H as [|x l _ Hrest]; subst.
  apply Forall_flat_map in Hrest. exact Hrest.
Qed.

Lemma formed_text_no_children (e : Element) (t : string) :
  formed e -> text e = Some t -> children e = [].
Proof.
  unfold formed. destruct e as [tg a tx tl cs]. cbn [nodes text children].
  intros H ->. inversion H as [|x l Hroot _]; subst.
  destruct cs; [reflexivity | discriminate].
Qed.

Lemma set_first_text_formed (name txt : string) (cs : list Element)
    (c : Element) (t : string) :
  Forall formed cs ->
  find (has_tag name) cs = Some c ->
  text c = Some t ->
  Forall formed (set_first_text name txt cs).
Proof.
  intros Hcs. revert c.
  induction Hcs as [|c0 cs Hc0 Hcs IH]; intros c Hfind Htext; cbn in *;
    [constructor|].
  destruct (has_tag name c0).
  - apply Some_inj in Hfind. subst c0.
    pose proof (formed_text_no_children _ _ Hc0 Htext) as Hno.
    destruct c as [tg a tx tl ch]. cbn in Hno. subst ch.
    constructor; [apply formed_leaf | exact Hcs].
  - constructor; [exact Hc0 | exact (IH _ Hfind Htext)].
Qed.

Lemma set_first_text_not_nil (name txt : string) (cs : list Element) :
  cs <> [] -> set_first_text name txt cs <> [].
Proof.
  destruct cs as [|c cs]; [contradiction|]. intros _. cbn.
  destruct (has_tag name c); [destruct c|]; discriminate.
Qed.

Lemma generate_dim_register_formed (window base : hjson) (node : Element) :
  generate_dim_register rt window base = Ok node -> formed node.
Proof.
  intros H.
  destruct (generate_dim_register_inv _ _ _ H)
    as (register & items & stride & Hreg & Hnode).
  cbv zeta in Hnode.
  pose proof (generate_register_formed _ _ _ Hreg) as Hformed.
  destruct register as [t a tx tl cs].
  assert (Htx : tx = None /\ cs <> []).
  { destruct (generate_register_inv _ _ _ Hreg)
      as (name & desc & genoffset & offset & addr & size & mask & rv & rm
          & acc & ra & mwv & flatten & fields & fs
          & _ & _ & Hsub & Hhex & Hfs & Heq).
    apply (f_equal (fun e => (text e, children e))) in Heq.
    cbn [text] in Heq. rewrite children_svd_node in Heq. cbn [children] in Heq.
    apply pair_equal_spec in Heq. destruct Heq as [-> ->].
    split; [reflexivity|].
    assert (Haddr : obj_is_none (OJson addr) = false).
    { destruct genoffset, base; try discriminate.
      cbn in Hsub. apply Ok_inj in Hsub. subst offset.
      cbn in Hhex. apply Ok_inj in Hhex. subst addr. reflexivity. }
    match goal with
    | |- (text_children rt ?texts ++ _)%list <> [] =>
        pose proof (text_children_not_nil "addressOffset" (OJson addr) texts) as Hne
    end.
    destruct (text_children rt _);
      [exfalso; apply Hne; [cbn; tauto | exact Haddr | reflexivity]
      | discriminate]. }
  destruct Htx as [-> Hcs].
  apply formed_children in Hformed. cbn [children] in Hformed.
  set (dims := [("dim", OJson items); ("dimIncrement", OJson stride)]) in *.
  change (svd_node rt (inr (mkElement t a None tl cs)) dims)
    with (mkElement t a None tl (cs ++ text_children rt dims)) in Hnode.
  assert (Hall : Forall formed (cs ++ text_children rt dims)).
  { apply Forall_app. split; [exact Hformed | apply formed_text_children]. }
  assert (Hne : (cs ++ text_children rt dims)%list <> []).
  { destruct cs; [contradiction | discriminate]. }
  destruct Hnode as [->|(nm & s & txt & Hfind & Htext & ->)].
  - apply formed_parent; assumption.
  - cbn [set_child_text]. apply formed_parent.
    + apply set_first_text_not_nil. exact Hne.
    + exact (set_first_text_formed _ _ _ _ _ Hall Hfind Htext).
Qed.

Section FormedRecursion.

Variable all_registers : hjson -> hjson -> result (list Element).
Hypothesis all_registers_formed :
  forall regs base nodes,
    all_registers regs base = Ok nodes -> Forall formed nodes.

Lemma generate_cluster_with_formed (multi base : hjson) (node : Element) :
  generate_cluster_with rt all_registers multi base = Ok node -> formed node.
Proof.
  unfold generate_cluster_with. destruct (py_ne_int base 0); [discriminate|].
  intros H. inv_bind H. apply Ok_inj in H. subst node.
  apply formed_svd_container; [cbn; tauto|].
  eapply all_registers_formed. eassumption.
Qed.

Lemma generate_entry_formed (base reg : hjson) (nodes : list Element) :
  generate_entry rt all_registers base reg = Ok nodes -> Forall formed nodes.
Proof.
  unfold generate_entry. intros H. inv_bind H.
  case_if H; [apply Ok_inj in H; subst nodes; constructor|].
  inv_bind H. case_if H.
  { inv_bind H. apply Ok_inj in H. subst nodes.
    constructor; [|constructor].
    eapply generate_dim_register_formed. eassumption. }
  inv_bind H. case_if H.
  { inv_bind H. eapply all_registers_formed. eassumption. }
  inv_bind H. case_if H.
  { inv_bind H. apply Ok_inj in H. subst nodes.
    constructor; [|constructor].
    eapply generate_cluster_with_formed. eassumption. }
  inv_bind H. apply Ok_inj in H. subst nodes.
  constructor; [|constructor].
  eapply generate_register_formed. eassumption.
Qed.

End FormedRecursion.

Lemma generate_all_registers_fuel_formed (fuel : nat) (regs base : hjson)
    (nodes : list Element) :
  generate_all_registers_fuel rt fuel regs base = Ok nodes ->
  Forall formed nodes.
Proof.
  revert regs base nodes.
  induction fuel as [|fuel IH]; intros regs base nodes H; cbn in H;
    [discriminate|].
  inv_bind H. apply Ok_inj in H. subst nodes.
  apply Forall_concat. eapply mapM_Forall; [|eassumption].
  intros reg ns _. apply generate_entry_formed. exact IH.
Qed.

Lemma generate_all_interrupts_formed (irqs : hjson) (nodes : list Element) :
  generate_all_interrupts rt irqs = Ok nodes -> Forall formed nodes.
Proof.
  unfold generate_all_interrupts. destruct (is_none irqs); intros H.
  - apply Ok_inj in H. subst nodes. constructor.
  - inv_bind H. eapply mapM_Forall; [|eassumption].
    intros [num irq] node _ Hnode. unfold generate_interrupt in Hnode.
    cbn [fst snd] in Hnode. inv_bind Hnode. apply Ok_inj in Hnode. subst node.
    match goal with
    | |- formed (svd_node rt (inl ?n) ?texts) =>
        change (svd_node rt (inl n) texts)
          with (mkElement (Tag n) [] None None (text_children rt texts))
    end.
    apply formed_parent; [|apply formed_text_children].
    eapply (text_children_not_nil "value");
      [cbn; right; left; reflexivity | reflexivity].
Qed.

Lemma generate_peripheral_formed (module ip : hjson) (node : Element) :
  generate_peripheral rt module ip = Ok node -> formed node.
Proof.
  unfold generate_peripheral. intros H. inv_bind H.
  apply Ok_inj in H. subst node.
  match goal with
  | |- formed (extend_node (svd_node rt (inl ?n) ?texts) ?cs) =>
      change (extend_node (svd_node rt (inl n) texts) cs)
        with (mkElement (Tag n) [] None None (text_children rt texts ++ cs))
  end.
  apply formed_parent.
  - intros Habs. apply app_eq_nil in Habs. destruct Habs as [_ Habs].
    apply app_eq_nil in Habs. destruct Habs as [_ Habs]. discriminate.
  - apply Forall_app. split; [apply formed_text_children|].
    apply Forall_app. split.
    + eapply generate_all_interrupts_formed. eassumption.
    + constructor; [|constructor; [apply formed_leaf | constructor]].
      apply formed_svd_container; [cbn; tauto|].
      eapply generate_all_registers_fuel_formed. eassumption.
Qed.

Lemma generate_peripherals_formed (modules : hjson) (ips : list (string * hjson))
    (node : Element) :
  generate_peripherals rt modules ips = Ok node -> formed node.
Proof.
  unfold generate_peripherals. intros H. inv_bind H.
  apply Ok_inj in H. subst node.
  apply formed_svd_container; [cbn; tauto|].
  eapply mapM_Forall; [|eassumption].
  intros module p _ Hp. cbn beta in Hp. inv_bind Hp.
  eapply generate_peripheral_formed. eassumption.
Qed.

Lemma leaf_parent_or_empty_never_both (n : Element) :
  leaf_parent_or_empty n = true -> never_both n = true.
Proof.
  unfold leaf_parent_or_empty, is_leaf, is_parent, is_empty_container, never_both.
  destruct (text n), (children n); cbn; (reflexivity || discriminate).
Qed.

(** C5, as the code has it.  Every node of the tree [generate_device]
    assembles is a leaf (text, no children), a parent (children, no text),
    or a registers, peripherals, fields or cluster container left without
    text and without children; none has both text and children. *)
Theorem assembled_tree_leaf_parent_or_empty
    (top : hjson) (ips : list (string * hjson)) (version description : string)
    (root : Element) :
  generate_device rt top ips version description = Ok root ->
  Forall (fun n =>
            (is_leaf n = true \/ is_parent n = true \/ is_empty_container n = true)
            /\ never_both n = true)
         (nodes root).
Proof.
  intros H.
  assert (Hformed : formed root).
  { unfold generate_device in H. inv_bind H. apply Ok_inj in H. subst root.
    match goal with
    | |- formed (extend_node (svd_node rt (inr (ET_Element ?n ?attrs)) ?texts) ?cs) =>
        change (extend_node (svd_node rt (inr (ET_Element n attrs)) texts) cs)
          with (mkElement (Tag n) attrs None None (text_children rt texts ++ cs))
    end.
    apply formed_parent.
    - intros Habs. apply app_eq_nil in Habs. destruct Habs as [_ Habs].
      discriminate.
    - apply Forall_app. split; [apply formed_text_children|].
      constructor; [|constructor; [|constructor]].
      + unfold generate_cpu.
        match goal with
        | |- formed (svd_node rt (inl ?n) ?texts) =>
            change (svd_node rt (inl n) texts)
              with (mkElement (Tag n) [] None None (text_children rt texts))
        end.
        apply formed_parent; [discriminate | apply formed_text_children].
      + eapply generate_peripherals_formed. eassumption. }
  unfold formed in Hformed. eapply Forall_impl; [|exact Hformed].
  intros n Hn. split; [|exact (leaf_parent_or_empty_never_both n Hn)].
  unfold leaf_parent_or_empty in Hn.
  destruct (is_leaf n); [now left|].
  destruct (is_parent n); [now right; left|].
  right. right. exact Hn.
Qed.

(** ** Nested multiregs *)

Lemma fold_left_min_unique (offs : list Z) (first m : Z) :
  In m (first :: offs) ->
  Forall (fun o => m <= o) (first :: offs) ->
  fold_left Z.min offs first = m.
Proof.
  intros Hin Hle. destruct (fold_left_min_spec offs first) as [Hin' Hle'].
  cbv zeta in Hin', Hle'.
  rewrite Forall_forall in Hle, Hle'.
  pose proof (Hle _ Hin'). pose proof (Hle' _ Hin). lia.
Qed.

Lemma generate_entry_multireg_nonzero_base
    (all_registers : hjson -> hjson -> result (list Element))
    (reg multi base : hjson) :
  py_ne_int base 0 = true ->
  multireg_branch_entry reg multi ->
  generate_entry rt all_registers base reg =
  Raise (SystemExit nesting_unsupported).
Proof.
  intros Hbase (Hres & Hskip & Hwin & Hsame & Hmulti). unfold generate_entry.
  rewrite Hres. cbn [bind]. rewrite Hskip. cbn [bind]. rewrite Hwin. cbn [bind].
  rewrite Hsame. cbn [bind]. rewrite (py_getitem_contains _ _ _ Hmulti).
  cbn [bind]. rewrite Hmulti. cbn [bind]. unfold generate_cluster_with.
  rewrite Hbase. reflexivity.
Qed.

(** C4, as the code has it.  A multireg compiled at a base other than 0
    fails with the nesting error.  So a top-level multireg whose members
    all carry integer offsets, the least of them not 0, and one of whose
    members is itself a multireg, fails with the nesting error once the
    members before that one have compiled; no cluster is produced. *)
Theorem nested_multireg_refused
    (multi name desc : hjson) (before after : list hjson) (reg inner : hjson)
    (offs : list Z) (m : Z) (nodes : list Element) :
  py_getitem multi "genregs" = Ok (HList (before ++ reg :: after)) ->
  py_getitem multi "name" = Ok name ->
  py_getitem multi "desc" = Ok desc ->
  Forall2 (fun r o => read_genoffset rt r = Ok (HInt o))
          (before ++ reg :: after) offs ->
  In m offs ->
  Forall (fun o => m <= o) offs ->
  m <> 0 ->
  multireg_branch_entry reg inner ->
  generate_all_registers rt (HList before) (HInt m) = Ok nodes ->
  (forall base,
     py_ne_int base 0 = true ->
     generate_cluster rt inner base = Raise (SystemExit nesting_unsupported)) /\
  generate_cluster rt multi (HInt 0) = Raise (SystemExit nesting_unsupported).
Proof.
  intros Hgenregs Hname Hdesc Hreads Hin Hle Hm Hentry Hbefore.
  split; [intros base Hbase; apply generate_cluster_nonzero_base; exact Hbase|].
  unfold generate_cluster, generate_cluster_with.
  cbn [py_ne_int py_eq_int Z.eqb negb].
  rewrite Hgenregs. cbn [bind]. unfold min_genoffset. cbn [py_iter bind].
  remember (before ++ reg :: after)%list as all eqn:Hall.
  destruct Hreads as [|r o members offs' Hr Hrest].
  { destruct before; discriminate. }
  rewrite Hr. cbn [bind]. rewrite (min_loop_ints _ _ _ Hrest). cbn [bind].
  rewrite (fold_left_min_unique offs' o m Hin Hle).
  rewrite Hname. cbn [bind]. rewrite Hdesc. cbn [bind hex_or_none is_none py_hex].
  rewrite Hall.
  rewrite generate_all_registers_concat, Hbefore. cbn [bind].
  rewrite generate_all_registers_cons.
  rewrite (generate_entry_multireg_nonzero_base _ reg inner (HInt m)).
  - reflexivity.
  - unfold py_ne_int, py_eq_int.
    destruct (Z.eqb_spec m 0); [contradiction | reflexivity].
  - exact Hentry.
Qed.
End Properties.

(** ** The theorems at concrete inputs *)

Lemma sw_access_modes_table_witness :
  py_get field_foo "swaccess" = Ok (HStr "rw") /\
  sw_access_modes field_foo = Ok (Some read_write, None, None).
Proof.
  split; [reflexivity|].
  apply (sw_access_modes_table field_foo (HStr "rw")); reflexivity.
Defined.

Lemma flattened_register_shape_witness :
  generate_register ascii_runtime reg_FOO (HInt 0) = Ok node_FOO /\
  find_child "fields" node_FOO = None /\
  child_text "size" node_FOO = Some (dec 8).
Proof.
  split; [reflexivity|].
  apply (flattened_register_shape ascii_runtime reg_FOO (HInt 0) field_foo
           (HList [HInt 255; HInt 8; HInt 0]) "foo" "FOO" 8 node_FOO);
    reflexivity.
Defined.

(** The size of the flattened register "FOO" is written in decimal, not
    as the hexadecimal string of the width. *)
Lemma flattened_size_not_hexadecimal :
  generate_register ascii_runtime reg_FOO (HInt 0) = Ok node_FOO /\
  child_text "size" node_FOO = Some "8" /\
  child_text "size" node_FOO <> Some (HexString.of_Z 8).
Proof.
  split; [reflexivity|]. split; [reflexivity|]. discriminate.
Qed.

Lemma cluster_offset_is_minimum_witness :
  generate_cluster ascii_runtime example_multireg (HInt 0) = Ok node_cluster /\
  exists m,
    In m [16; 20; 24] /\
    Forall (fun o => m <= o) [16; 20; 24] /\
    child_text "addressOffset" node_cluster = Some (HexString.of_Z m) /\
    map (child_text "addressOffset")
        (filter (has_tag "register") (children node_cluster)) =
      map (fun o => Some (HexString.of_Z (o - m))) [16; 20; 24] /\
    Forall (fun o => 0 <= o - m) [16; 20; 24].
Proof.
  split; [reflexivity|].
  apply (cluster_offset_is_minimum ascii_runtime example_multireg
           [plain_reg "R0" 16; window_entry "BUF" 20; plain_reg "R2" 24]).
  - reflexivity.
  - constructor; [apply member_plain; reflexivity|].
    constructor; [eapply member_window; reflexivity|].
    constructor; [apply member_plain; reflexivity|].
    constructor.
  - reflexivity.
Defined.

Lemma assembled_tree_never_both_witness :
  generate_device ascii_runtime top_one_module ips_no_registers "1.0" "a chip"
    = Ok device_no_registers /\
  Forall (fun n => never_both n = true) (nodes device_no_registers).
Proof.
  split; [reflexivity|].
  apply (assembled_tree_never_both ascii_runtime top_one_module
           ips_no_registers "1.0" "a chip").
  reflexivity.
Defined.

(** The registers container of a peripheral without registers is neither
    a leaf nor a parent. *)
Lemma empty_container_neither_leaf_nor_parent :
  generate_device ascii_runtime top_one_module ips_no_registers "1.0" "a chip"
    = Ok device_no_registers /\
  In (mkElement (Tag "registers") [] None None []) (nodes device_no_registers) /\
  is_leaf (mkElement (Tag "registers") [] None None []) = false /\
  is_parent (mkElement (Tag "registers") [] None None []) = false.
Proof.
  split; [reflexivity|]. split; [|split; reflexivity].
  cbn. repeat (try (left; reflexivity); right).
Qed.

(** A multireg whose only member is a multireg, written without an offset
    of its own, fails on reading the offset, not with the nesting error. *)
Lemma nested_multireg_fails_on_missing_offset :
  generate_all_registers ascii_runtime (HList [nested_multireg]) (HInt 0) =
    Raise (SystemExit (missing_offset_message ascii_runtime inner_multireg)) /\
  generate_all_registers ascii_runtime (HList [nested_multireg]) (HInt 0) <>
    Raise (SystemExit nesting_unsupported).
Proof.
  split; [reflexivity|]. vm_compute. discriminate.
Qed.

Lemma nested_multireg_refused_witness :
  multireg_branch_entry nested_member_at_16
    (HDict [ ("name", HStr "INNER"); ("desc", HStr "a group");
             ("genregs", HList [plain_reg "R" 16]) ]) /\
  generate_all_registers ascii_runtime (HList [plain_reg "R0" 20]) (HInt 16)
    = Ok [plain_node "R0" "0x4"] /\
  generate_cluster ascii_runtime multireg_nested_at_16 (HInt 0)
    = Raise (SystemExit nesting_unsupported).
Proof.
  split; [repeat split; reflexivity|]. split; [reflexivity|].
  apply (nested_multireg_refused ascii_runtime multireg_nested_at_16
           (HStr "OUTER") (HStr "a group") [plain_reg "R0" 20] []
           nested_member_at_16
           (HDict [ ("name", HStr "INNER"); ("desc", HStr "a group");
                    ("genregs", HList [plain_reg "R" 16]) ])
           [20; 16] 16 [plain_node "R0" "0x4"]).
  - reflexivity.
  - reflexivity.
  - reflexivity.
  - constructor; [reflexivity|]. constructor; [reflexivity | constructor].
  - cbn. right. left. reflexivity.
  - repeat constructor; lia.
  - lia.
  - repeat split; reflexivity.
  - reflexivity.
Defined.

Lemma assembled_tree_leaf_parent_or_empty_witness :
  generate_device ascii_runtime top_one_module ips_no_registers "1.0" "a chip"
    = Ok device_no_registers /\
  Forall (fun n =>
            (is_leaf n = true \/ is_parent n = true \/ is_empty_container n = true)
            /\ never_both n = true)
         (nodes device_no_registers).
Proof.
  split; [reflexivity|].
  apply (assembled_tree_leaf_parent_or_empty ascii_runtime top_one_module
           ips_no_registers "1.0" "a chip").
  reflexivity.
Defined.

Lemma window_name_has_placeholder_witness :
  generate_dim_register ascii_runtime example_window (HInt 0) = Ok node_window /\
  exists name,
    py_getitem example_window "name" = Ok name /\
    (has_placeholder (py_str ascii_runtime (OJson name)) ->
     child_text "name" node_window = Some (py_str ascii_runtime (OJson name))) /\
    (~ has_placeholder (py_str ascii_runtime (OJson name)) ->
     child_text "name" node_window =
       Some (py_str ascii_runtime (OJson name) ++ "%s")) /\
    (exists t, child_text "name" node_window = Some t /\ has_placeholder t).
Proof.
  split; [reflexivity|].
  apply (window_name_has_placeholder ascii_runtime example_window (HInt 0)).
  reflexivity.
Defined.

Lemma xyz_not_a_label : ~ In "xyz" the_labels.
Proof.
  cbn. intros H.
  repeat (destruct H as [H|H]; [discriminate H|]). exact H.
Qed.

Lemma unrecognized_label_raises_KeyError_witness :
  py_get (reg_bad_label "A") "swaccess" = Ok (HStr "xyz") /\
  generate_register ascii_runtime (reg_bad_label "A") (HInt 0)
    = Raise (KeyError (HStr "xyz")).
Proof.
  split; [reflexivity|].
  apply (unrecognized_label_raises_KeyError ascii_runtime (reg_bad_label "A")
           "xyz" (HInt 0) HNone false);
    (reflexivity || exact xyz_not_a_label).
Defined.

(** The exception for an unrecognised label is the same for two owners
    with different names: it carries the label and nothing of the owner. *)
Lemma unrecognized_label_error_omits_owner :
  generate_register ascii_runtime (reg_bad_label "A") (HInt 0)
    = Raise (KeyError (HStr "xyz")) /\
  generate_register ascii_runtime (reg_bad_label "B") (HInt 0)
    = Raise (KeyError (HStr "xyz")) /\
  py_getitem (reg_bad_label "A") "name" <> py_getitem (reg_bad_label "B") "name".
Proof.
  split; [reflexivity|]. split; [reflexivity|]. discriminate.
Qed.

Lemma missing_offset_in_cluster_witness :
  py_get reg_no_offset "genoffset" = Ok HNone /\
  py_get reg_no_offset "window" = Ok HNone /\
  generate_cluster ascii_runtime multireg_missing_offset (HInt 0) =
    Raise (SystemExit (missing_offset_message ascii_runtime reg_no_offset)).
Proof.
  split; [reflexivity|]. split; [reflexivity|].
  apply (missing_offset_in_cluster ascii_runtime multireg_missing_offset
           [plain_reg "R0" 16] [plain_reg "R2" 24] reg_no_offset).
  - reflexivity.
  - constructor; [exists 16; reflexivity | constructor].
  - reflexivity.
  - reflexivity.
Defined.

(** A plain register without an offset, compiled on its own, raises
    [KeyError] for the key, not the error with the dump of the entry. *)
Lemma missing_offset_of_plain_register_is_KeyError :
  generate_all_registers ascii_runtime (HList [reg_no_offset]) (HInt 0)
    = Raise (KeyError (HStr "genoffset")) /\
  generate_all_registers ascii_runtime (HList [reg_no_offset]) (HInt 0)
    <> Raise (SystemExit (missing_offset_message ascii_runtime reg_no_offset)).
Proof.
  split; [reflexivity|]. discriminate.
Qed.

Lemma register_access_from_own_label_witness :
  generate_register ascii_runtime reg_FOO (HInt 0) = Ok node_FOO /\
  child_text "access" node_FOO = Some "read-only" /\
  generate_register ascii_runtime
    (HDict (dict_set "fields" (HList [HDict field_foo_bad_label_kvs]) reg_FOO_kvs))
    (HInt 0) = Ok node_FOO.
Proof.
  split; [reflexivity|].
  destruct (register_access_from_own_label ascii_runtime reg_FOO_kvs
              field_foo_kvs field_foo_bad_label_kvs (HInt 0) node_FOO
              eq_refl) as [(a & r & m & Hmodes & Haccess & _) Hsame].
  split.
  - reflexivity.
  - apply Hsame; reflexivity.
Defined.

(** ** The further properties at concrete inputs *)

Lemma skipped_entry_inert_witness :
  generate_all_registers ascii_runtime
    (HList ([plain_reg "CTRL" 0] ++ reserved_entry :: [plain_reg "DATA" 8]))
    (HInt 0) =
  generate_all_registers ascii_runtime
    (HList ([plain_reg "CTRL" 0] ++ [plain_reg "DATA" 8])) (HInt 0).
Proof.
  apply (skipped_entry_inert ascii_runtime). left. reflexivity.
Defined.

Lemma sameaddr_group_spliced_witness :
  generate_all_registers ascii_runtime
    (HList ([plain_reg "CTRL" 0] ++ sameaddr_example :: [plain_reg "DATA" 12]))
    (HInt 0) =
  generate_all_registers ascii_runtime
    (HList ([plain_reg "CTRL" 0]
              ++ [plain_reg "VIEW_A" 8; plain_reg "VIEW_B" 8]
              ++ [plain_reg "DATA" 12])) (HInt 0).
Proof.
  apply (sameaddr_group_spliced ascii_runtime). repeat split; reflexivity.
Defined.

Lemma plain_registers_compile_in_order_witness :
  generate_all_registers ascii_runtime
    (HList [plain_reg "CTRL" 0; plain_reg "DATA" 8]) (HInt 0) =
  mapM (fun reg => generate_register ascii_runtime reg (HInt 0))
       [plain_reg "CTRL" 0; plain_reg "DATA" 8].
Proof.
  apply (plain_registers_compile_in_order ascii_runtime).
  repeat constructor.
Defined.

Lemma multireg_at_nonzero_base_refused_witness :
  generate_all_registers ascii_runtime
    (HList ([plain_reg "R0" 20] ++ inner_multireg :: [])) (HInt 16) =
  Raise (SystemExit nesting_unsupported).
Proof.
  apply (multireg_at_nonzero_base_refused ascii_runtime [plain_reg "R0" 20] []
           inner_multireg
           (HDict [ ("name", HStr "INNER"); ("desc", HStr "a group");
                    ("genregs", HList [plain_reg "R" 16]) ])
           (HInt 16) [plain_node "R0" "0x4"]).
  - reflexivity.
  - repeat split; reflexivity.
  - reflexivity.
Defined.

Lemma empty_multireg_raises_ValueError_witness :
  generate_cluster ascii_runtime
    (HDict [("name", HStr "EMPTY"); ("desc", HStr "a group"); ("genregs", HList [])])
    (HInt 0) = Raise ValueError.
Proof.
  apply (empty_multireg_raises_ValueError ascii_runtime). reflexivity.
Defined.


Lemma register_address_offset_witness :
  generate_register ascii_runtime (plain_reg "R" 4) (HInt 16)
    = Ok (plain_node "R" "-0xc") /\
  exists o b,
    py_getitem (plain_reg "R" 4) "genoffset" = Ok (HInt o) /\
    HInt 16 = HInt b /\
    child_text "addressOffset" (plain_node "R" "-0xc")
      = Some (HexString.of_Z (o - b)).
Proof.
  split; [reflexivity|].
  apply (register_address_offset ascii_runtime (plain_reg "R" 4) (HInt 16)).
  reflexivity.
Defined.

Lemma register_optional_attributes_witness :
  exists node,
    generate_register ascii_runtime reg_with_masks (HInt 0) = Ok node /\
    child_text "mask" node = Some "0xff" /\
    child_text "resetValue" node = Some "0x1" /\
    child_text "resetMask" node = None /\
    exists v,
      py_get reg_with_masks "genresmask" = Ok v /\
      ((v = HNone /\ child_text "resetMask" node = None) \/
       (exists z, v = HInt z /\
                  child_text "resetMask" node = Some (HexString.of_Z z))).
Proof.
  eexists. split; [reflexivity|]. repeat (split; [reflexivity|]).
  apply (register_optional_attributes ascii_runtime reg_with_masks (HInt 0) _
           eq_refl "genresmask" "resetMask").
  right. right. left. reflexivity.
Defined.


Lemma unflattened_fields_in_order_witness :
  generate_register ascii_runtime reg_two_fields (HInt 0) = Ok node_two_fields /\
  exists nodes,
    mapM (generate_field ascii_runtime) [field_of "EN" 1 0; field_of "MODE" 4 8]
      = Ok nodes /\
    List.length nodes = 2%nat /\
    filter (has_tag "fields") (children node_two_fields) =
      [mkElement (Tag "fields") [] None None nodes].
Proof.
  split; [reflexivity|].
  apply (unflattened_fields_in_order ascii_runtime reg_two_fields (HInt 0)
           [field_of "EN" 1 0; field_of "MODE" 4 8] node_two_fields);
    reflexivity.
Defined.

Lemma field_node_contents_witness :
  generate_field ascii_runtime (field_of "MODE" 4 8) = Ok (field_node "MODE" "[11:8]") /\
  exists bitinfo range a r m,
    py_getitem (field_of "MODE" 4 8) "bitinfo" = Ok bitinfo /\
    generate_bitrange bitinfo = Ok range /\
    sw_access_modes (field_of "MODE" 4 8) = Ok (a, r, m) /\
    tag (field_node "MODE" "[11:8]") = Tag "field" /\
    child_text "bitRange" (field_node "MODE" "[11:8]") = Some range /\
    child_text "access" (field_node "MODE" "[11:8]")
      = option_map (str_access ascii_runtime) a /\
    child_text "readAction" (field_node "MODE" "[11:8]")
      = option_map (str_readAction ascii_runtime) r /\
    child_text "modifiedWriteValues" (field_node "MODE" "[11:8]")
      = option_map (str_modifiedWriteValues ascii_runtime) m.
Proof.
  split; [reflexivity|].
  apply (field_node_contents ascii_runtime (field_of "MODE" 4 8)). reflexivity.
Defined.

Lemma interrupts_numbered_by_position_witness :
  generate_all_interrupts ascii_runtime (HList two_interrupts)
    = Ok [interrupt_node "tx_done" "0"; interrupt_node "rx_ready" "1"] /\
  exists node name,
    nth_error [interrupt_node "tx_done" "0"; interrupt_node "rx_ready" "1"] 1
      = Some node /\
    py_getitem (HDict [("name", HStr "rx_ready")]) "name" = Ok name /\
    tag node = Tag "interrupt" /\
    child_text "value" node = Some (dec 1) /\
    child_text "name" node =
      (if is_none name then None else Some (py_str ascii_runtime (OJson name))).
Proof.
  split; [reflexivity|].
  destruct (interrupts_numbered_by_position ascii_runtime two_interrupts
              [interrupt_node "tx_done" "0"; interrupt_node "rx_ready" "1"])
    as [_ H].
  destruct (H eq_refl) as [_ Hnth].
  exact (Hnth 1%nat (HDict [("name", HStr "rx_ready")]) eq_refl).
Defined.

Lemma window_dimensions_witness :
  generate_dim_register ascii_runtime example_window (HInt 0) = Ok node_window /\
  exists items,
    py_getitem example_window "items" = Ok items /\
    child_text "dim" node_window =
      (if is_none items then None
       else Some (py_str ascii_runtime (OJson items))) /\
    child_text "dimIncrement" node_window = Some (HexString.of_Z (32 / 8)).
Proof.
  split; [reflexivity|].
  apply (window_dimensions ascii_runtime example_window (HInt 0) 32 node_window).
  - reflexivity.
  - split; [lia | reflexivity].
  - reflexivity.
Defined.

Lemma window_like_plain_register_witness :
  generate_dim_register ascii_runtime example_window (HInt 0) = Ok node_window /\
  exists register,
    generate_register ascii_runtime example_window (HInt 0) = Ok register /\
    tag node_window = tag register /\
    forall tg,
      String.eqb "name" tg = false ->
      String.eqb "dim" tg = false ->
      String.eqb "dimIncrement" tg = false ->
      find_child tg node_window = find_child tg register.
Proof.
  split; [reflexivity|].
  apply (window_like_plain_register ascii_runtime example_window (HInt 0)).
  reflexivity.
Defined.

Lemma window_and_multireg_entries_one_node_witness :
  generate_all_registers ascii_runtime
    (HList ([plain_reg "CTRL" 0] ++ window_entry "BUF" 32 :: [])) (HInt 0) =
  (nodes1 <- generate_all_registers ascii_runtime (HList [plain_reg "CTRL" 0])
               (HInt 0) ;;
   register <- generate_dim_register ascii_runtime example_window (HInt 0) ;;
   nodes2 <- generate_all_registers ascii_runtime (HList []) (HInt 0) ;;
   Ok (nodes1 ++ register :: nodes2)%list).
Proof.
  apply (window_and_multireg_entries_one_node ascii_runtime
           [plain_reg "CTRL" 0] [] (window_entry "BUF" 32) example_window (HInt 0));
    reflexivity.
Defined.

Lemma peripheral_contents_witness :
  generate_peripheral ascii_runtime module_uart ip_uart = Ok node_uart /\
  filter (has_tag "interrupt") (children node_uart)
    = [interrupt_node "tx_done" "0"; interrupt_node "rx_ready" "1"] /\
  find_child "registers" node_uart
    = Some (mkElement (Tag "registers") [] None None
              [plain_node "CTRL" "0x0"; plain_node "DATA" "0x8"]) /\
  last (children node_uart) node_uart = ET_Comment "end of uart0".
Proof.
  split; [reflexivity|].
  destruct (peripheral_contents ascii_runtime module_uart ip_uart node_uart
              eq_refl)
    as (name & irqs & regs & interrupts & registers
        & Hname & Hirqs & Hints & Hregs & Hgen & _ & Hfilter & Hfind & Hlast).
  apply Ok_inj in Hname. subst name.
  apply Ok_inj in Hirqs. subst irqs.
  apply Ok_inj in Hints. subst interrupts.
  apply Ok_inj in Hregs. subst regs.
  apply Ok_inj in Hgen. subst registers.
  split; [exact Hfilter|]. split; [exact Hfind | exact Hlast].
Defined.

Lemma peripherals_in_module_order_witness :
  generate_peripherals ascii_runtime (HList [module_uart]) [("uart", ip_uart)]
    = Ok (mkElement (Tag "peripherals") [] None None [node_uart]) /\
  Forall2 (fun module p =>
             exists type ip,
               py_getitem module "type" = Ok (HStr type) /\
               dict_lookup type [("uart", ip_uart)] = Some ip /\
               generate_peripheral ascii_runtime module ip = Ok p)
          [module_uart] [node_uart].
Proof.
  split; [reflexivity|].
  apply (peripherals_in_module_order ascii_runtime [module_uart]
           [("uart", ip_uart)]
           (mkElement (Tag "peripherals") [] None None [node_uart])).
  reflexivity.
Defined.

Lemma unresolved_module_type_raises_KeyError_witness :
  generate_peripherals ascii_runtime
    (HList ([module_uart] ++ module_unknown :: [])) [("uart", ip_uart)]
  = Raise (KeyError (HStr "spi")).
Proof.
  apply (unresolved_module_type_raises_KeyError ascii_runtime [module_uart] []
           module_unknown "spi" [("uart", ip_uart)]
           (mkElement (Tag "peripherals") [] None None [node_uart]));
    reflexivity.
Defined.

Lemma indent_tree_layout_witness :
  text (indent_tree ascii_runtime small_tree newline) = Some (newline ++ "  ") /\
  map tail (children (indent_tree ascii_runtime small_tree newline))
    = [Some (newline ++ "  "); Some newline] /\
  map text (children (indent_tree ascii_runtime small_tree newline))
    = [Some "CTRL"; Some (newline ++ "    ")].
Proof.
  destruct (indent_tree_layout ascii_runtime small_tree newline)
    as (_ & _ & _ & _ & _ & Hparent).
  destruct Hparent as [Htext Htails]; [discriminate|].
  split; [exact Htext|]. split; [exact Htails | reflexivity].
Defined.

Lemma device_root_witness :
  generate_device ascii_runtime top_one_module ips_no_registers "1.0" "a chip"
    = Ok device_no_registers /\
  child_text "width" device_no_registers = Some "32" /\
  child_text "width" device_no_registers = child_text "size" device_no_registers.
Proof.
  split; [reflexivity|].
  destruct (device_root ascii_runtime top_one_module ips_no_registers "1.0"
              "a chip" device_no_registers eq_refl)
    as (_ & _ & _ & _ & _ & _ & (width & Hwidth & Heq & Htext) & _).
  split; [reflexivity | exact Heq].
Defined.

Lemma generate_bitrange_integers_witness :
  generate_bitrange (HList [HInt 0; HInt 4; HInt 8]) = Ok "[11:8]" /\
  generate_bitrange (HList [HInt 0; HInt 4]) = Raise IndexError.
Proof.
  destruct (generate_bitrange_integers (HList [HInt 0; HInt 4; HInt 8]))
    as [Hints _].
  destruct (generate_bitrange_integers (HList [HInt 0; HInt 4])) as [_ Hshort].
  split.
  - apply (Hints 4 8); reflexivity.
  - apply (Hshort [HInt 0; HInt 4]); [reflexivity | cbn; lia].
Defined.

Lemma flatten_of_cases_witness :
  flatten_of ascii_runtime reg_FOO (HList [field_foo]) = Ok true /\
  flatten_of ascii_runtime reg_two_fields
    (HList [field_of "EN" 1 0; field_of "MODE" 4 8]) = Ok false.
Proof.
  destruct (flatten_of_cases ascii_runtime reg_FOO (HList [field_foo]))
    as (_ & _ & Hone).
  destruct (flatten_of_cases ascii_runtime reg_two_fields
              (HList [field_of "EN" 1 0; field_of "MODE" 4 8]))
    as (_ & Hlen & _).
  split.
  - destruct (Hone field_foo "foo" "FOO" eq_refl eq_refl eq_refl eq_refl)
      as [_ Hsame].
    apply (Hsame (HList [HInt 255; HInt 8; HInt 0]) 0); reflexivity.
  - apply (Hlen 2); [discriminate | reflexivity | lia].
Defined.
